(** * Kokoro TTS HTTP server ([voice/kokoro/server.py])

    A shallow embedding of the request handler, the pipeline cache and the
    NaN-recovery controller, together with the properties the specification
    states about them.

    Conventions.
    - A Python [str] is a [string]; one [ascii] stands for one character.
    - A Python [int] is a [Z]; an audio sample is a [spec_float], so that
      NaN, the infinities and the finite values are told apart.
    - The module-level dict [pipelines] is a [gmap string pid].
    - Everything outside the file (the [KPipeline] class, [soundfile],
      [ffmpeg], [os.listdir], [json.loads], [int]) is a field of a [World]:
      an arbitrary function of the history of calls made so far.  Every
      theorem holds for every world.
    - Only exceptions that derive from [Exception] are modelled. *)

From Stdlib Require Import ZArith String Ascii List Bool Lia.
From Stdlib Require Import Floats.SpecFloat.
From stdpp Require Import gmap strings list sorting.

Local Open Scope string_scope.
Local Open Scope Z_scope.

(** ** Python strings *)

Module PyStr.

(** [s.startswith(p)] *)
Definition startswith (p s : string) : bool := String.prefix p s.

(** [s.endswith(p)] *)
Definition endswith (p s : string) : bool :=
  (String.length p <=? String.length s)%nat
  && String.eqb (substring (String.length s - String.length p) (String.length p) s) p.

(** [s.replace(old, new)] for a non-empty [old]: the occurrences of [old]
    are found from the left, never overlapping.  [skip] counts the
    characters of an occurrence that are still to be dropped. *)
Fixpoint replace_from (old new : string) (skip : nat) (s : string) : string :=
  match s with
  | EmptyString => EmptyString
  | String c rest =>
      match skip with
      | S k => replace_from old new k rest
      | O =>
          if String.prefix old s
          then new ++ replace_from old new (String.length old - 1) rest
          else String c (replace_from old new 0 rest)
      end
  end.

Definition replace (old new s : string) : string := replace_from old new 0 s.

(** [s[:n]] *)
Definition slice_to (n : nat) (s : string) : string := substring 0 n s.

(** Order of [str] values: lexicographic on the characters. *)
Definition le (s1 s2 : string) : Prop := String.leb s1 s2 = true.

#[global] Instance le_dec : RelDecision le :=
  fun s1 s2 => decide (String.leb s1 s2 = true).

(** [sorted(l)] on a list of strings. *)
Definition sorted (l : list string) : list string := merge_sort le l.

End PyStr.

(** ** The voice pattern *)

Definition is_lower (c : ascii) : bool :=
  (97 <=? nat_of_ascii c)%nat && (nat_of_ascii c <=? 122)%nat.

Definition is_digit (c : ascii) : bool :=
  (48 <=? nat_of_ascii c)%nat && (nat_of_ascii c <=? 57)%nat.

(** The class [[a-z0-9_]]. *)
Definition is_name_char (c : ascii) : bool :=
  is_lower c || is_digit c || Ascii.eqb c "_".

Definition newline : ascii := "010".

(** The tail [[a-z0-9_]*$] of the pattern.  Without [re.MULTILINE], [$]
    holds at the end of the string and also just before a newline that is
    the last character of the string. *)
Fixpoint match_name_tail (s : string) : bool :=
  match s with
  | EmptyString => true
  | String c rest =>
      if is_name_char c then match_name_tail rest
      else Ascii.eqb c newline && String.eqb rest EmptyString
  end.

(** [VOICE_PATTERN.match(s)] for
    [VOICE_PATTERN = re.compile(r'^[a-z]{2}_[a-z0-9_]+$')]:
    [true] when a match object is returned. *)
Definition VOICE_PATTERN_match (s : string) : bool :=
  match s with
  | String a (String b (String u (String c rest))) =>
      is_lower a && is_lower b && Ascii.eqb u "_" && is_name_char c
      && match_name_tail rest
  | _ => false
  end.

(** The language the pattern is written for, read as a grammar: two
    lower-case letters, an underscore, then one or more of [[a-z0-9_]] up to
    the end of the string. *)
Fixpoint all_name_chars (s : string) : bool :=
  match s with
  | EmptyString => true
  | String c rest => is_name_char c && all_name_chars rest
  end.

Definition voice_in_grammar (s : string) : bool :=
  match s with
  | String a (String b (String u (String c rest))) =>
      is_lower a && is_lower b && Ascii.eqb u "_" && is_name_char c
      && all_name_chars rest
  | _ => false
  end.

(** ** Voice discovery *)

(** [sorted([f.replace('.pt', '') for f in listing
             if f.endswith('.pt') and not f.startswith('.')])] *)
Definition list_voices (listing : list string) : list string :=
  PyStr.sorted
    (List.map (PyStr.replace ".pt" "")
       (List.filter
          (fun f => PyStr.endswith ".pt" f && negb (PyStr.startswith "." f))
          listing)).

(** What stripping the suffix alone would give. *)
Definition strip_suffix (suf s : string) : string :=
  if PyStr.endswith suf s
  then substring 0 (String.length s - String.length suf) s
  else s.

(** ** Python values and exceptions *)

(** An exception: its class name and [str(e)]. *)
Record exn := Exn { exn_type : string; exn_msg : string }.

Inductive result (A : Type) : Type :=
| Ok (a : A)
| Raise (e : exn).
Arguments Ok {A} a.
Arguments Raise {A} e.

(** What [json.loads] can return. *)
#[warnings="-register-all"]
Inductive pyval :=
| PNone
| PBool (b : bool)
| PInt (z : Z)
| PFloat (f : spec_float)
| PStr (s : string)
| PList (l : list pyval)
| PDict (d : list (string * pyval)).

(** [bool(v)] *)
Definition truthy (v : pyval) : bool :=
  match v with
  | PNone => false
  | PBool b => b
  | PInt z => negb (z =? 0)
  | PFloat f => match f with S754_zero _ => false | _ => true end
  | PStr s => negb (String.eqb s "")
  | PList l => match l with [] => false | _ => true end
  | PDict d => match d with [] => false | _ => true end
  end.

Definition type_name (v : pyval) : string :=
  match v with
  | PNone => "NoneType"
  | PBool _ => "bool"
  | PInt _ => "int"
  | PFloat _ => "float"
  | PStr _ => "str"
  | PList _ => "list"
  | PDict _ => "dict"
  end.

(** [len(v)] *)
Definition py_len (v : pyval) : result Z :=
  match v with
  | PStr s => Ok (Z.of_nat (String.length s))
  | PList l => Ok (Z.of_nat (List.length l))
  | PDict d => Ok (Z.of_nat (List.length d))
  | _ => Raise (Exn "TypeError" ("object of type '" ++ type_name v ++ "' has no len()"))
  end.

(** [v[:n]]: a [str] and a [list] can be sliced, a [dict] cannot, and the
    other values are not subscriptable. *)
Definition py_slice_to (n : nat) (v : pyval) : result pyval :=
  match v with
  | PStr s => Ok (PStr (PyStr.slice_to n s))
  | PList l => Ok (PList (firstn n l))
  | PDict _ => Raise (Exn "TypeError" "unhashable type: 'slice'")
  | _ => Raise (Exn "TypeError" ("'" ++ type_name v ++ "' object is not subscriptable"))
  end.

Fixpoint assoc (k : string) (d : list (string * pyval)) : option pyval :=
  match d with
  | [] => None
  | (k', v) :: d' => if String.eqb k k' then Some v else assoc k d'
  end.

(** [body.get(key, default)]: only a [dict] has [get]. *)
Definition py_get (body : pyval) (key : string) (default : pyval) : result pyval :=
  match body with
  | PDict d => Ok (match assoc key d with Some v => v | None => default end)
  | _ => Raise (Exn "AttributeError"
                  ("'" ++ type_name body ++ "' object has no attribute 'get'"))
  end.

(** ** Audio *)

Definition sample := spec_float.
Definition audio := list sample.

Definition is_nan (x : sample) : bool :=
  match x with S754_nan => true | _ => false end.


(** [np.isnan(audio).any()] *)
Definition has_nan (a : audio) : bool := existsb is_nan a.


(** ** Constants *)

Definition VDIR : string := "/app/api/src/voices/v1_0".
Definition PORT : Z := 7880.
Definition MAX_TEXT_LENGTH : Z := 10000.
Definition MAX_BODY_SIZE : Z := 1000000.

(** ** The process and the world around it *)

(** A pipeline object is known by its identity. *)
Definition pid := nat.
(** A loaded voice tensor, opaque. *)
Definition voice_data := nat.

(** The completed [subprocess.run] of [ffmpeg]; [stdout] and [stderr] are
    the bytes captured. *)
Record proc := Proc { returncode : Z; stdout : string; stderr : string }.

(** What the process does to the outside, with what came back. *)
Inductive event :=
| EvRead (n : Z) (data : string)
| EvConstruct (lang : string) (r : result pid)
| EvLoadVoice (p : pid) (name : string) (r : result voice_data)
| EvWarmup (p : pid) (v : voice_data) (r : result (list audio))
| EvInference (p : pid) (text : pyval) (v : voice_data) (r : result (list audio))
| EvEvict (lang : string) (old : option pid)
| EvEncode (a : audio) (r : result proc)
| EvListdir (r : result (list string)).

(** The newest event is the head of a history. *)
Definition history := list event.

Record World := {
  (** [int(s)] of a header value; [None] is a [ValueError] *)
  w_int : string -> option Z;
  (** [json.loads(bytes)] *)
  w_json_loads : string -> result pyval;
  (** [KPipeline(lang_code=lang, model=MODEL)]: returns or raises *)
  w_KPipeline : history -> string -> result unit;
  (** [pipe.load_voice(name, VDIR)] *)
  w_load_voice : history -> pid -> string -> result voice_data;
  (** [pipe(text, voice=voice)] iterated to its end: the [r.audio.numpy()]
      of every result, or the exception that stopped the iteration *)
  w_pipe : history -> pid -> pyval -> voice_data -> result (list audio);
  (** [sf.write] to memory, then [subprocess.run(['ffmpeg', ...])] *)
  w_ffmpeg : history -> audio -> result proc;
  (** [bytes.decode()]: the text, or the [UnicodeDecodeError] of bytes that
      are not UTF-8 *)
  w_decode : string -> result string;
  (** [os.listdir(VDIR)] *)
  w_listdir : history -> result (list string)
}.

(** The module-level variables, the next fresh object identity, and the
    history. *)
Record state := State {
  pipelines : gmap string pid;
  nan_recoveries : Z;
  next_pid : pid;
  trace : history
}.

Definition initial : state := State ∅ 0 0%nat [].

Definition log (e : event) (st : state) : state :=
  State (pipelines st) (nan_recoveries st) (next_pid st) (e :: trace st).

(** ** A state and exception monad *)

Definition M (A : Type) : Type := state -> result A * state.

Definition ret {A} (a : A) : M A := fun st => (Ok a, st).
Definition raise {A} (e : exn) : M A := fun st => (Raise e, st).
Definition bind {A B} (m : M A) (k : A -> M B) : M B :=
  fun st => match m st with
            | (Ok a, st') => k a st'
            | (Raise e, st') => (Raise e, st')
            end.
(** [try: m  except Exception: h] *)
Definition try_except {A} (m : M A) (h : exn -> M A) : M A :=
  fun st => match m st with
            | (Ok a, st') => (Ok a, st')
            | (Raise e, st') => h e st'
            end.
Definition lift {A} (r : result A) : M A := fun st => (r, st).

Notation "'let*' x := m 'in' k" := (bind m (fun x => k))
  (at level 10, x name, m at level 100, k at level 200).
Notation "m ;;; k" := (bind m (fun _ => k))
  (at level 100, right associativity).

Definition gets {A} (f : state -> A) : M A := fun st => (Ok (f st), st).
Definition modify (f : state -> state) : M unit := fun st => (Ok tt, f st).

(** ** Requests and responses *)

(** The two methods [TTSHandler] has a handler for.  A request of another
    method never reaches the code of this file. *)
Inductive http_method := GET | POST.

Record request := Request {
  method : http_method;
  path : string;
  (** the [Content-Length] header, if the request has one *)
  content_length : option string;
  (** the bytes that can be read from the connection *)
  rfile : string
}.

Inductive response :=
| JsonResponse (status : Z) (data : pyval)   (* [self._json(status, data)] *)
| AudioResponse (mp3 : string).              (* 200, [audio/mpeg] *)

Definition status_of (r : response) : Z :=
  match r with
  | JsonResponse s _ => s
  | AudioResponse _ => 200
  end.

Definition _json (status : Z) (data : pyval) : response := JsonResponse status data.

Definition error_body (msg : string) : pyval := PDict [("error", PStr msg)].

(** A JSON error response: [_json(status, {'error': ...})]. *)
Definition is_json_error (status : Z) (r : response) : Prop :=
  exists msg, r = JsonResponse status (error_body msg).

Section Server.

Variable W : World.

(** *** External calls, each leaving its event *)

(** [KPipeline(lang_code=lang_code, model=MODEL)]: a new object. *)
Definition KPipeline (lang_code : string) : M pid := fun st =>
  match w_KPipeline W (trace st) lang_code with
  | Ok _ =>
      let p := next_pid st in
      (Ok p, State (pipelines st) (nan_recoveries st) (S p)
               (EvConstruct lang_code (Ok p) :: trace st))
  | Raise e => (Raise e, log (EvConstruct lang_code (Raise e)) st)
  end.

Definition load_voice (pipe : pid) (name : string) : M voice_data := fun st =>
  let r := w_load_voice W (trace st) pipe name in
  (r, log (EvLoadVoice pipe name r) st).

(** [for r in pipe("warmup", voice=voice): pass] *)
Definition warmup_pass (pipe : pid) (voice : voice_data) : M unit := fun st =>
  let r := w_pipe W (trace st) pipe (PStr "warmup") voice in
  (match r with Ok _ => Ok tt | Raise e => Raise e end,
   log (EvWarmup pipe voice r) st).

(** What [self.rfile.read(length)] returns: [length] bytes, or all of
    them for [-1]. *)
Definition read_bytes (req : request) (length : Z) : string :=
  if length =? -1 then rfile req
  else substring 0 (Z.to_nat length) (rfile req).

(** [self.rfile.read(length)] *)
Definition rfile_read (req : request) (length : Z) : M string := fun st =>
  if length <? -1
  then (Raise (Exn "ValueError" "read length must be non-negative or -1"), st)
  else
    let data := read_bytes req length in
    (Ok data, log (EvRead length data) st).

(** *** The pipeline cache *)

Definition warmup_voices : list (string * string) :=
  [("a", "af_alloy"); ("b", "bf_emma"); ("j", "jf_alpha")].

(** [warmup_voices.get(lang_code, 'af_alloy')] *)
Definition warmup_voice_of (lang_code : string) : string :=
  match List.find (fun kv => String.eqb lang_code (fst kv)) warmup_voices with
  | Some kv => snd kv
  | None => "af_alloy"
  end.

(** [pipelines[lang_code]] *)
Definition pipelines_getitem (lang_code : string) : M pid := fun st =>
  match pipelines st !! lang_code with
  | Some p => (Ok p, st)
  | None => (Raise (Exn "KeyError" lang_code), st)
  end.

(** [pipelines[lang_code] = pipe] *)
Definition pipelines_setitem (lang_code : string) (pipe : pid) : M unit :=
  modify (fun st => State (<[lang_code := pipe]> (pipelines st))
                      (nan_recoveries st) (next_pid st) (trace st)).

(** [pipelines.pop(lang_code, None)] *)
Definition pipelines_pop (lang_code : string) : M (option pid) := fun st =>
  let old := pipelines st !! lang_code in
  (Ok old, State (delete lang_code (pipelines st)) (nan_recoveries st)
             (next_pid st) (EvEvict lang_code old :: trace st)).

Definition get_pipeline (lang_code : string) : M pid :=
  let* cached := gets (fun st => pipelines st !! lang_code) in
  (match cached with
   | Some _ => ret tt
   | None =>
       let* pipe := KPipeline lang_code in
       let warmup_voice := warmup_voice_of lang_code in
       try_except
         (let* voice := load_voice pipe warmup_voice in
          warmup_pass pipe voice)
         (fun _ => ret tt) ;;;
       pipelines_setitem lang_code pipe
   end) ;;;
  pipelines_getitem lang_code.

(** *** Inference and encoding *)

Definition _run_inference (pipe : pid) (text : pyval) (voice : voice_data)
  : M audio := fun st =>
  let r := w_pipe W (trace st) pipe text voice in
  let st' := log (EvInference pipe text voice r) st in
  match r with
  | Raise e => (Raise e, st')
  | Ok [] => (Raise (Exn "RuntimeError" "No audio generated"), st')
  | Ok chunks => (Ok (List.concat chunks), st')
  end.

Definition _audio_to_mp3 (a : audio) : M string := fun st =>
  let r := w_ffmpeg W (trace st) a in
  let st' := log (EvEncode a r) st in
  match r with
  | Raise e => (Raise e, st')
  | Ok proc =>
      if negb (returncode proc =? 0)
      then
        (* the f-string is evaluated first: [proc.stderr.decode()] can raise *)
        match w_decode W (stderr proc) with
        | Ok text =>
            (Raise (Exn "RuntimeError"
                      ("ffmpeg error: " ++ PyStr.slice_to 200 text)), st')
        | Raise e => (Raise e, st')
        end
      else (Ok (stdout proc), st')
  end.

(** [voice_name[0]] *)
Definition first_char (s : string) : result string :=
  match s with
  | String c _ => Ok (String c EmptyString)
  | EmptyString => Raise (Exn "IndexError" "string index out of range")
  end.

Definition generate_mp3 (text : pyval) (voice_name : string) : M string :=
  let* lang_code := lift (first_char voice_name) in
  let* pipe := get_pipeline lang_code in
  let* voice := load_voice pipe voice_name in
  let* a := _run_inference pipe text voice in
  if negb (has_nan a) then _audio_to_mp3 a
  else
    pipelines_pop lang_code ;;;
    let* pipe := get_pipeline lang_code in
    let* voice := load_voice pipe voice_name in
    let* a := _run_inference pipe text voice in
    if has_nan a
    then raise (Exn "RuntimeError" "NaN in audio output after pipeline reload")
    else
      modify (fun st => State (pipelines st) (nan_recoveries st + 1)
                          (next_pid st) (trace st)) ;;;
      _audio_to_mp3 a.

(** *** The request handler *)

(** [sorted([...os.listdir(VDIR)...])] *)
Definition voices : M (list string) := fun st =>
  let r := w_listdir W (trace st) in
  (match r with Ok l => Ok (list_voices l) | Raise e => Raise e end,
   log (EvListdir r) st).

Definition voices_body (vs : list string) : pyval :=
  PDict [("voices", PList (List.map PStr vs))].

(** [int(self.headers.get('Content-Length', 0))]; [None] is the
    [ValueError] of a header that is not a number. *)
Definition declared_length (req : request) : option Z :=
  match content_length req with
  | None => Some 0
  | Some h => w_int W h
  end.

(** The body of the outer [try] of the [/tts] branch. *)
Definition tts (req : request) : M response :=
  match declared_length req with
  | None => ret (_json 400 (error_body "Invalid Content-Length"))
  | Some length =>
      if length >? MAX_BODY_SIZE
      then ret (_json 413 (error_body "Request too large"))
      else
        let* data := rfile_read req length in
        match w_json_loads W data with
        | Raise e =>
            if String.eqb (exn_type e) "JSONDecodeError"
            then ret (_json 400 (error_body "Invalid JSON"))
            else raise e
        | Ok body =>
            let* text := lift (py_get body "text" (PStr "")) in
            let* voice := lift (py_get body "voice" (PStr "af_heart")) in
            if negb (truthy text)
            then ret (_json 400 (error_body "No text provided"))
            else
              let* n := lift (py_len text) in
              if n >? MAX_TEXT_LENGTH
              then ret (_json 400 (error_body "Text too long (max 10000 chars)"))
              else
                match voice with
                | PStr v =>
                    if negb (VOICE_PATTERN_match v)
                    then ret (_json 400 (error_body ("Invalid voice name: " ++ v)))
                    else
                      (* the log line formats [text[:60]] *)
                      lift (py_slice_to 60 text) ;;;
                      let* mp3_bytes := generate_mp3 text v in
                      ret (AudioResponse mp3_bytes)
                | _ =>
                    (* [VOICE_PATTERN.match] of a value that is not a [str] *)
                    raise (Exn "TypeError" "expected string or bytes-like object")
                end
        end
  end.

Definition do_POST (req : request) (st : state) : response * state :=
  if String.eqb (path req) "/tts" then
    match tts req st with
    | (Ok r, st') => (r, st')
    | (Raise e, st') => (_json 500 (error_body (exn_msg e)), st')
    end
  else if String.eqb (path req) "/voices" then
    match voices st with
    | (Ok vs, st') => (_json 200 (voices_body vs), st')
    | (Raise e, st') => (_json 500 (error_body (exn_msg e)), st')
    end
  else (_json 404 (error_body "Not found"), st).

(** The order of the keys in [pipelines_loaded] is not modelled. *)
Definition health_body (st : state) : pyval :=
  PDict [("status", PStr "ok");
         ("model", PStr "kokoro-v1_0");
         ("pipelines_loaded", PList (List.map PStr (map_to_list (pipelines st)).*1));
         ("nan_recoveries", PInt (nan_recoveries st));
         ("port", PInt PORT)].

(** [do_GET] has no [try]: an exception of [os.listdir] leaves the handler
    and no response is written. *)
Definition do_GET (req : request) (st : state) : result response * state :=
  if String.eqb (path req) "/health" then (Ok (_json 200 (health_body st)), st)
  else if String.eqb (path req) "/voices" then
    match voices st with
    | (Ok vs, st') => (Ok (_json 200 (voices_body vs)), st')
    | (Raise e, st') => (Raise e, st')
    end
  else (Ok (_json 404 (error_body "Not found")), st).

Definition handle (req : request) (st : state) : result response * state :=
  match method req with
  | GET => do_GET req st
  | POST => let '(r, st') := do_POST req st in (Ok r, st')
  end.

(** [server.serve_forever()]: one request after the other. *)
Fixpoint serve_forever (reqs : list request) (st : state) : state :=
  match reqs with
  | [] => st
  | req :: rest => serve_forever rest (snd (handle req st))
  end.

(** The [__main__] block: load the pipeline of ['a'], then serve.  A
    failure of the first load ends the process. *)
Definition main (reqs : list request) : state :=
  match get_pipeline "a" initial with
  | (Ok _, st) => serve_forever reqs st
  | (Raise _, st) => st
  end.

End Server.

(** ** Reading a history *)

(** The events of a step that took the history from [old] to [d ++ old] are
    [d], newest first. *)

(** What [_run_inference] returns for a result of the pipeline: the
    concatenated chunks, or nothing when it raises. *)
Definition output_of (r : result (list audio)) : option audio :=
  match r with
  | Ok (c :: cs) => Some (List.concat (c :: cs))
  | _ => None
  end.

(** The inference calls, oldest first: the pipeline used and the output. *)
Definition inferences (d : history) : list (pid * option audio) :=
  List.flat_map
    (fun e => match e with
              | EvInference p _ _ r => [(p, output_of r)]
              | _ => []
              end)
    (List.rev d).

(** How many times [_run_inference] called the pipeline. *)
Definition inference_count (d : history) : nat := List.length (inferences d).

(** The evictions from the cache, oldest first. *)
Definition evictions (d : history) : list (string * option pid) :=
  List.flat_map
    (fun e => match e with EvEvict c old => [(c, old)] | _ => [] end)
    (List.rev d).

(** The constructor calls, oldest first. *)
Definition constructions (d : history) : list (string * result pid) :=
  List.flat_map
    (fun e => match e with EvConstruct c r => [(c, r)] | _ => [] end)
    (List.rev d).

(** The buffers handed to the encoder, oldest first. *)
Definition encoded (d : history) : list audio :=
  List.flat_map
    (fun e => match e with EvEncode a _ => [a] | _ => [] end)
    (List.rev d).

(** The reads of the request body, oldest first. *)
Definition reads (d : history) : list Z :=
  List.flat_map
    (fun e => match e with EvRead n _ => [n] | _ => [] end)
    (List.rev d).

(** The pipelines that were constructed and not evicted since. *)
Fixpoint live (h : history) : list (string * pid) :=
  match h with
  | [] => []
  | EvConstruct c (Ok p) :: h' => (c, p) :: live h'
  | EvEvict c (Some p) :: h' => filter (fun x => x ≠ (c, p)) (live h')
  | _ :: h' => live h'
  end.

(** Every cached pipeline is older than the next fresh identity. *)
Definition wf_state (st : state) : Prop :=
  forall c p, pipelines st !! c = Some p -> (p < next_pid st)%nat.

(** ** Example worlds *)

Module Examples.

(** [int] of a string of decimal digits. *)
Fixpoint digits (acc : Z) (s : string) : option Z :=
  match s with
  | EmptyString => Some acc
  | String c rest =>
      if is_digit c
      then digits (10 * acc + Z.of_nat (nat_of_ascii c - 48)) rest
      else None
  end.

Definition int_of_string (s : string) : option Z :=
  match s with
  | EmptyString => None
  | _ => digits 0 s
  end.

(** [bytes.decode()] of ASCII bytes; a byte outside ASCII is taken as not
    decodable (the examples have no multi-byte sequence). *)
Definition decode_ascii (s : string) : result string :=
  if forallb (fun c => (nat_of_ascii c <? 128)%nat) (list_ascii_of_string s)
  then Ok s
  else Raise (Exn "UnicodeDecodeError"
                "'utf-8' codec can't decode byte: invalid start byte").

Definition one : sample := S754_finite false 1 0.
Definition clean : audio := [S754_zero false; one].
Definition with_nan : audio := [one; S754_nan].

(** A world in which every request body parses to [body], every voice
    loads, the encoder succeeds, and the pipeline answers [outputs !! n] on
    the [n]-th inference call of the process (and [clean] afterwards and
    during warmup). *)
Definition scripted (body : pyval) (outputs : list audio) : World := {|
  w_int := int_of_string;
  w_json_loads := fun _ => Ok body;
  w_KPipeline := fun _ _ => Ok tt;
  w_load_voice := fun _ _ _ => Ok 0%nat;
  w_pipe := fun h _ text _ =>
    Ok [default clean (outputs !! inference_count h)];
  w_ffmpeg := fun _ _ => Ok (Proc 0 "mp3" "");
  w_decode := decode_ascii;
  w_listdir := fun _ => Ok ["bf_emma.pt"; ".hidden.pt"; "af_heart.pt"; "notes.txt"]
|}.

Definition say (text voice : pyval) : pyval :=
  PDict [("text", text); ("voice", voice)].

Definition hello : pyval := say (PStr "hello") (PStr "af_heart").

Definition post_tts : request := Request POST "/tts" (Some "20") "{...}".

(** A world whose voice directory holds the given names. *)
Definition with_listing (W : World) (names : list string) : World := {|
  w_int := w_int W;
  w_json_loads := w_json_loads W;
  w_KPipeline := w_KPipeline W;
  w_load_voice := w_load_voice W;
  w_pipe := w_pipe W;
  w_ffmpeg := w_ffmpeg W;
  w_decode := w_decode W;
  w_listdir := fun _ => Ok names
|}.

(** A world in which the warmup voice cannot be loaded. *)
Definition without_warmup_voice (W : World) : World := {|
  w_int := w_int W;
  w_json_loads := w_json_loads W;
  w_KPipeline := w_KPipeline W;
  w_load_voice := fun h p name =>
    if String.eqb name "af_alloy"
    then Raise (Exn "FileNotFoundError" "af_alloy.pt")
    else w_load_voice W h p name;
  w_pipe := w_pipe W;
  w_ffmpeg := w_ffmpeg W;
  w_decode := w_decode W;
  w_listdir := w_listdir W
|}.

Definition get_voices : request := Request GET "/voices" None "".
Definition big_post : request := Request POST "/tts" (Some "1000001") "".

Definition heart_newline : string := "af_heart" ++ String newline "".

(** A world whose encoder ends as [pr] says. *)
Definition with_ffmpeg (W : World) (pr : proc) : World := {|
  w_int := w_int W;
  w_json_loads := w_json_loads W;
  w_KPipeline := w_KPipeline W;
  w_load_voice := w_load_voice W;
  w_pipe := w_pipe W;
  w_ffmpeg := fun _ _ => Ok pr;
  w_decode := w_decode W;
  w_listdir := w_listdir W
|}.

(** A world whose JSON parser answers [r]. *)
Definition with_json (W : World) (r : result pyval) : World := {|
  w_int := w_int W;
  w_json_loads := fun _ => r;
  w_KPipeline := w_KPipeline W;
  w_load_voice := w_load_voice W;
  w_pipe := w_pipe W;
  w_ffmpeg := w_ffmpeg W;
  w_decode := w_decode W;
  w_listdir := w_listdir W
|}.

(** A world in which at most [n] pipelines can be constructed. *)
Definition with_pipelines (W : World) (n : nat) : World := {|
  w_int := w_int W;
  w_json_loads := w_json_loads W;
  w_KPipeline := fun h c =>
    if (length (constructions h) <? n)%nat then w_KPipeline W h c
    else Raise (Exn "RuntimeError" "out of memory");
  w_load_voice := w_load_voice W;
  w_pipe := w_pipe W;
  w_ffmpeg := w_ffmpeg W;
  w_decode := w_decode W;
  w_listdir := w_listdir W
|}.

Definition text_of_length (n : Z) : string :=
  string_of_list_ascii (repeat "a"%char (Z.to_nat n)).

Definition post_without_length : request := Request POST "/tts" None "{...}".
Definition post_bad_length : request := Request POST "/tts" (Some "abc") "{...}".
Definition get_nothing : request := Request GET "/nothing" None "".

End Examples.

(** ** Definitions used by the proofs *)

Local Open Scope list_scope.

(** [st'] is [st] after the events [d]. *)
Definition extends (st st' : state) (d : history) : Prop :=
  trace st' = d ++ trace st.

(** The events [get_pipeline] and [load_voice] leave for the code [c]. *)
Definition builds_ev (c : string) (e : event) : Prop :=
  match e with
  | EvConstruct c' _ => c' = c
  | EvLoadVoice _ _ _ | EvWarmup _ _ _ => True
  | _ => False
  end.

Definition builds (c : string) (d : history) : Prop := Forall (builds_ev c) d.

(** One attempt of [generate_mp3]: lines 77-80, and again lines 89-92. *)
Definition attempt (W : World) (c : string) (text : pyval) (voice_name : string)
  : M audio :=
  let* pipe := get_pipeline W c in
  let* voice := load_voice W pipe voice_name in
  _run_inference W pipe text voice.

(** No two live pipelines share a language code. *)
Definition one_per_code (h : history) : Prop := NoDup (live h).*1.

(** At every point of a history there is at most one live pipeline per
    language code, and a pipeline is only ever constructed for a code that
    has no live pipeline. *)
Fixpoint good (h : history) : Prop :=
  match h with
  | [] => True
  | e :: h' =>
      one_per_code (e :: h')
      /\ match e with
         | EvConstruct c _ => c ∉ (live h').*1
         | _ => True
         end
      /\ good h'
  end.

(** Between two operations on the cache, the cache holds exactly the live
    pipelines. *)
Definition Inv (st : state) : Prop :=
  good (trace st) /\ live (trace st) ≡ₚ map_to_list (pipelines st).

(** The computation [m] keeps the property [I] of the state, whether it
    returns or raises. *)
Definition keeps (I : state -> Prop) {A} (m : M A) : Prop :=
  forall st r st', I st -> m st = (r, st') -> I st'.

(** The events of the warmup pass. *)
Definition warm_ev (e : event) : Prop :=
  match e with
  | EvLoadVoice _ _ _ | EvWarmup _ _ _ => True
  | _ => False
  end.

Definition nan_after_reload : exn :=
  Exn "RuntimeError" "NaN in audio output after pipeline reload".

(** The five ways a run of [generate_mp3] for a voice of code [c] can go,
    from [st] to [st'] through the events [d], with result [r]. *)
Inductive generate_mp3_run (c : string) (st st' : state) (d : history)
  (r : result string) : Prop :=
| first_attempt_failed :
    (exists e, r = Raise e) ->
    (inferences d = [] \/ exists p, inferences d = [(p, None)]) ->
    evictions d = [] -> encoded d = [] ->
    nan_recoveries st' = nan_recoveries st ->
    generate_mp3_run c st st' d r
| first_attempt_clean p a :
    inferences d = [(p, Some a)] -> has_nan a = false ->
    evictions d = [] -> encoded d = [a] ->
    nan_recoveries st' = nan_recoveries st ->
    pipelines st' = <[c := p]> (pipelines st) ->
    generate_mp3_run c st st' d r
| retry_failed p1 a1 :
    (exists e, r = Raise e) -> has_nan a1 = true ->
    (inferences d = [(p1, Some a1)]
     \/ exists p2, inferences d = [(p1, Some a1); (p2, None)]) ->
    evictions d = [(c, Some p1)] -> encoded d = [] ->
    nan_recoveries st' = nan_recoveries st ->
    generate_mp3_run c st st' d r
| retry_nan p1 a1 p2 a2 d2 d1 :
    r = Raise nan_after_reload ->
    has_nan a1 = true -> has_nan a2 = true ->
    inferences d = [(p1, Some a1); (p2, Some a2)] ->
    d = d2 ++ EvEvict c (Some p1) :: d1 ->
    constructions d2 = [(c, Ok p2)] ->
    evictions d = [(c, Some p1)] -> encoded d = [] ->
    nan_recoveries st' = nan_recoveries st ->
    pipelines st' = <[c := p2]> (pipelines st) ->
    (wf_state st -> (p1 < p2)%nat) ->
    generate_mp3_run c st st' d r
| recovered p1 a1 p2 a2 d2 d1 :
    has_nan a1 = true -> has_nan a2 = false ->
    inferences d = [(p1, Some a1); (p2, Some a2)] ->
    d = d2 ++ EvEvict c (Some p1) :: d1 ->
    constructions d2 = [(c, Ok p2)] ->
    evictions d = [(c, Some p1)] -> encoded d = [a2] ->
    nan_recoveries st' = nan_recoveries st + 1 ->
    pipelines st' = <[c := p2]> (pipelines st) ->
    (wf_state st -> (p1 < p2)%nat) ->
    generate_mp3_run c st st' d r.

(** A request that is turned away before synthesis leaves at most the read
    of its body behind. *)
Definition turned_away (req : request) (st st' : state) : Prop :=
  st' = st \/ exists n data, st' = log (EvRead n data) st.

(** A request that reaches [generate_mp3 text v]. *)
Inductive synthesized (W : World) (req : request) (st st' : state)
  (r : result response) (text : pyval) (v : string) : Prop :=
| Synthesized (n : Z) (data : string) (body : pyval) (rg : result string) :
    declared_length W req = Some n ->
    (n >? MAX_BODY_SIZE) = false ->
    data = read_bytes req n ->
    w_json_loads W data = Ok body ->
    py_get body "text" (PStr "") = Ok text ->
    py_get body "voice" (PStr "af_heart") = Ok (PStr v) ->
    truthy text = true ->
    VOICE_PATTERN_match v = true ->
    generate_mp3 W text v (log (EvRead n data) st) = (rg, st') ->
    r = match rg with
        | Ok mp3 => Ok (AudioResponse mp3)
        | Raise e => Raise e
        end ->
    synthesized W req st st' r text v.

(** The events of the warmup of the pipeline [p] of code [c], newest
    first: the default voice is loaded and, if that worked, a throwaway pass
    is run. *)
Definition warmup_events (W : World) (c : string) (p : pid) (h : history)
  : history :=
  match w_load_voice W h p (warmup_voice_of c) with
  | Raise e => [EvLoadVoice p (warmup_voice_of c) (Raise e)]
  | Ok vd =>
      let h' := EvLoadVoice p (warmup_voice_of c) (Ok vd) :: h in
      [EvWarmup p vd (w_pipe W h' p (PStr "warmup") vd);
       EvLoadVoice p (warmup_voice_of c) (Ok vd)]
  end.

Definition is_str (v : pyval) : bool :=
  match v with PStr _ => true | _ => false end.

(** An event that neither constructs nor evicts a pipeline. *)
Definition plain (e : event) : Prop :=
  match e with
  | EvConstruct _ _ | EvEvict _ _ => False
  | _ => True
  end.

(** No character of [s] is a dot. *)
Fixpoint no_dot (s : string) : bool :=
  match s with
  | EmptyString => true
  | String c rest => negb (Ascii.eqb c ".") && no_dot rest
  end.

(** The pipeline an event calls into, if it does. *)
Definition pipeline_used (e : event) : option pid :=
  match e with
  | EvLoadVoice p _ _ | EvWarmup p _ _ | EvInference p _ _ _ => Some p
  | _ => None
  end.

(** Every call into a pipeline is made while that pipeline is live. *)
Fixpoint uses_live (h : history) : Prop :=
  match h with
  | [] => True
  | e :: h' =>
      match pipeline_used e with
      | Some p => p ∈ (live h').*2
      | None => True
      end
      /\ uses_live h'
  end.









Import Examples.

(** ** The monad *)

Lemma bind_inv {A B} (m : M A) (k : A -> M B) st r st' :
  bind m k st = (r, st') ->
  (exists a st1, m st = (Ok a, st1) /\ k a st1 = (r, st'))
  \/ (exists e, m st = (Raise e, st') /\ r = Raise e).
Proof.
  unfold bind. destruct (m st) as [[a|e] st1]; intros H.
  - left. eauto.
  - right. inversion H; subst. eauto.
Qed.

Lemma extends_refl st : extends st st [].
Proof. reflexivity. Qed.

Lemma extends_log e st : extends st (log e st) [e].
Proof. reflexivity. Qed.

Lemma extends_trans st st1 st2 d1 d2 :
  extends st st1 d1 -> extends st1 st2 d2 -> extends st st2 (d2 ++ d1).
Proof. unfold extends. intros H1 H2. rewrite H2, H1. apply app_assoc. Qed.

Lemma extends_unique st st' d d' :
  extends st st' d -> extends st st' d' -> d = d'.
Proof.
  unfold extends. intros H1 H2. rewrite H1 in H2.
  exact (app_inv_tail _ _ _ H2).
Qed.

(** ** Histories *)

Section Collect.
Context {A : Type} (f : event -> list A).

Lemma collect_app (d2 d1 : history) :
  flat_map f (rev (d2 ++ d1)) = flat_map f (rev d1) ++ flat_map f (rev d2).
Proof. rewrite rev_app_distr. apply flat_map_app. Qed.

Lemma collect_cons (e : event) (d : history) :
  flat_map f (rev (e :: d)) = flat_map f (rev d) ++ f e.
Proof. simpl. rewrite flat_map_app. simpl. rewrite app_nil_r. reflexivity. Qed.

Lemma collect_nil_Forall (d : history) :
  Forall (fun e => f e = []) d -> flat_map f (rev d) = [].
Proof.
  induction 1 as [|e d He _ IH]; [reflexivity|].
  rewrite collect_cons, IH, He. reflexivity.
Qed.
End Collect.

Lemma inferences_app d2 d1 : inferences (d2 ++ d1) = inferences d1 ++ inferences d2.
Proof. apply collect_app. Qed.
Lemma evictions_app d2 d1 : evictions (d2 ++ d1) = evictions d1 ++ evictions d2.
Proof. apply collect_app. Qed.
Lemma constructions_app d2 d1 :
  constructions (d2 ++ d1) = constructions d1 ++ constructions d2.
Proof. apply collect_app. Qed.
Lemma encoded_app d2 d1 : encoded (d2 ++ d1) = encoded d1 ++ encoded d2.
Proof. apply collect_app. Qed.
Lemma reads_app d2 d1 : reads (d2 ++ d1) = reads d1 ++ reads d2.
Proof. apply collect_app. Qed.

Lemma builds_app c d2 d1 : builds c d2 -> builds c d1 -> builds c (d2 ++ d1).
Proof. apply Forall_app_2. Qed.

Lemma builds_inferences c d : builds c d -> inferences d = [].
Proof.
  intros H. apply collect_nil_Forall. eapply Forall_impl; [exact H|].
  intros [] He; simpl in He; solve [reflexivity | contradiction].
Qed.

Lemma builds_evictions c d : builds c d -> evictions d = [].
Proof.
  intros H. apply collect_nil_Forall. eapply Forall_impl; [exact H|].
  intros [] He; simpl in He; solve [reflexivity | contradiction].
Qed.

Lemma builds_encoded c d : builds c d -> encoded d = [].
Proof.
  intros H. apply collect_nil_Forall. eapply Forall_impl; [exact H|].
  intros [] He; simpl in He; solve [reflexivity | contradiction].
Qed.

Lemma builds_reads c d : builds c d -> reads d = [].
Proof.
  intros H. apply collect_nil_Forall. eapply Forall_impl; [exact H|].
  intros [] He; simpl in He; solve [reflexivity | contradiction].
Qed.

Lemma builds_constructions c d :
  builds c d -> Forall (fun x => x.1 = c) (constructions d).
Proof.
  induction 1 as [|e d He _ IH]; [constructor|].
  unfold constructions in *. rewrite collect_cons.
  apply Forall_app_2; [exact IH|].
  destruct e; simpl in *; try constructor; auto.
Qed.

(** ** The pipeline cache *)

Lemma warm_builds c w : Forall warm_ev w -> builds c w.
Proof.
  intros H. eapply Forall_impl; [exact H|].
  intros [] He; simpl in *; solve [contradiction | exact I].
Qed.

(** The three ways [get_pipeline] can go: the pipeline is cached; the
    constructor raises; a pipeline is constructed, warmed up (whatever the
    warmup does) and cached. *)
Lemma get_pipeline_cases W c st r st' :
  get_pipeline W c st = (r, st') ->
  (exists p, pipelines st !! c = Some p /\ r = Ok p /\ st' = st)
  \/ (exists e, pipelines st !! c = None /\ r = Raise e
                /\ w_KPipeline W (trace st) c = Raise e
                /\ st' = log (EvConstruct c (Raise e)) st)
  \/ (exists w, pipelines st !! c = None /\ r = Ok (next_pid st)
                /\ w_KPipeline W (trace st) c = Ok tt
                /\ Forall warm_ev w /\ w ≠ []
                /\ st' = State (<[c := next_pid st]> (pipelines st))
                           (nan_recoveries st) (S (next_pid st))
                           (w ++ EvConstruct c (Ok (next_pid st)) :: trace st)).
Proof.
  unfold get_pipeline, bind, gets, ret, try_except, pipelines_setitem, modify,
    pipelines_getitem, KPipeline, load_voice, warmup_pass, log.
  destruct (pipelines st !! c) as [p|] eqn:Hc; cbn.
  - rewrite Hc. intros [= <- <-]. left. eauto.
  - destruct (w_KPipeline W (trace st) c) as [[]|e]; cbn.
    + destruct (w_load_voice W _ _ _) as [v|e]; cbn.
      * destruct (w_pipe W _ _ _ _) as [chunks|e] eqn:Hw; cbn;
          rewrite lookup_insert_eq; intros [= <- <-]; right; right;
          eexists [_; _]; repeat split; try discriminate; repeat constructor.
      * rewrite lookup_insert_eq. intros [= <- <-]. right; right.
        eexists [_]; repeat split; try discriminate; repeat constructor.
    + intros [= <- <-]. right; left. eauto.
Qed.

Lemma get_pipeline_spec W c st r st' :
  get_pipeline W c st = (r, st') ->
  exists d, extends st st' d /\ builds c d
    /\ nan_recoveries st' = nan_recoveries st
    /\ match r with
       | Ok p =>
           pipelines st' = <[c := p]> (pipelines st)
           /\ (pipelines st !! c = Some p /\ next_pid st' = next_pid st
               /\ constructions d = []
               \/ pipelines st !! c = None /\ p = next_pid st
                  /\ next_pid st' = S p /\ constructions d = [(c, Ok p)])
       | Raise e =>
           pipelines st' = pipelines st /\ pipelines st !! c = None
           /\ next_pid st' = next_pid st /\ constructions d = [(c, Raise e)]
       end.
Proof.
  intros H. apply get_pipeline_cases in H
    as [(p & Hc & -> & ->)|[(e & Hc & -> & _ & ->)
                           |(w & Hc & -> & _ & Hw & _ & ->)]].
  - exists []. repeat split; [constructor|..].
    + symmetry. apply insert_id, Hc.
    + left. auto.
  - exists [EvConstruct c (Raise e)]. repeat split; auto.
    repeat constructor.
  - exists (w ++ [EvConstruct c (Ok (next_pid st))]). repeat split.
    + unfold extends. cbn. rewrite <- app_assoc. reflexivity.
    + apply builds_app; [apply warm_builds, Hw | repeat constructor].
    + right. repeat split; auto.
      rewrite constructions_app.
      pose proof (builds_constructions c w (warm_builds c w Hw)) as Hb.
      assert (constructions w = []) as ->; [|reflexivity].
      apply collect_nil_Forall. eapply Forall_impl; [exact Hw|].
      intros [] He; simpl in He; solve [reflexivity | contradiction].
Qed.

Lemma load_voice_spec W p name st r st' :
  load_voice W p name st = (r, st') -> st' = log (EvLoadVoice p name r) st.
Proof. unfold load_voice. intros [= <- <-]. reflexivity. Qed.

Lemma _run_inference_spec W p text v st r st' :
  _run_inference W p text v st = (r, st') ->
  exists rr, st' = log (EvInference p text v rr) st
    /\ output_of rr = match r with Ok a => Some a | Raise _ => None end.
Proof.
  unfold _run_inference.
  destruct (w_pipe W (trace st) p text v) as [[|c cs]|e];
    intros [= <- <-]; eexists; split; reflexivity.
Qed.

Lemma _audio_to_mp3_spec W a st r st' :
  _audio_to_mp3 W a st = (r, st') ->
  exists rr, st' = log (EvEncode a rr) st.
Proof.
  unfold _audio_to_mp3.
  destruct (w_ffmpeg W (trace st) a) as [pr|e].
  - destruct (negb _); [destruct (w_decode W _)|]; intros [= <- <-]; eauto.
  - intros [= <- <-]; eauto.
Qed.

(** One attempt: at most one inference call, no eviction, nothing encoded,
    and the cache is touched at the code [c] only. *)
Lemma attempt_spec W c text v st r st' :
  attempt W c text v st = (r, st') ->
  exists d, extends st st' d
    /\ nan_recoveries st' = nan_recoveries st
    /\ evictions d = [] /\ encoded d = [] /\ reads d = []
    /\ Forall (fun x => x.1 = c) (constructions d)
    /\ (forall k, k ≠ c -> pipelines st' !! k = pipelines st !! k)
    /\ match r with
       | Ok a =>
           exists p, inferences d = [(p, Some a)]
             /\ pipelines st' = <[c := p]> (pipelines st)
             /\ (pipelines st !! c = Some p /\ next_pid st' = next_pid st
                 /\ constructions d = []
                 \/ pipelines st !! c = None /\ p = next_pid st
                    /\ next_pid st' = S p /\ constructions d = [(c, Ok p)])
       | Raise e => inferences d = [] \/ exists p, inferences d = [(p, None)]
       end.
Proof.
  unfold attempt. intros H.
  apply bind_inv in H as [(p & st1 & Hgp & H)|(e & Hgp & ->)];
    apply get_pipeline_spec in Hgp as (d1 & Hd1 & Hb1 & Hn1 & Hr1).
  2:{ destruct Hr1 as (Hp & _ & _ & Hc).
      exists d1. repeat split; eauto using builds_evictions, builds_encoded,
        builds_reads, builds_constructions, builds_inferences.
      intros k _. rewrite Hp. reflexivity. }
  destruct Hr1 as [Hp1 Hcase].
  assert (Hother : forall k, k ≠ c -> pipelines st1 !! k = pipelines st !! k).
  { intros k Hk. rewrite Hp1. apply lookup_insert_ne. congruence. }
  apply bind_inv in H as [(vd & st2 & Hlv & H)|(e & Hlv & ->)];
    apply load_voice_spec in Hlv; subst.
  2:{ exists (EvLoadVoice p v (Raise e) :: d1).
      assert (Hb : builds c (EvLoadVoice p v (Raise e) :: d1))
        by (constructor; [exact I | exact Hb1]).
      repeat split; eauto using builds_evictions, builds_encoded,
        builds_reads, builds_constructions, builds_inferences.
      unfold extends in *. cbn. rewrite Hd1. reflexivity. }
  apply _run_inference_spec in H as (rr & -> & Hout).
  set (b := EvLoadVoice p v (Ok vd) :: d1).
  assert (Hb : builds c b) by (constructor; [exact I | exact Hb1]).
  exists ([EvInference p text vd rr] ++ b).
  rewrite evictions_app, encoded_app, reads_app, constructions_app,
    inferences_app.
  rewrite (builds_evictions c b Hb), (builds_encoded c b Hb),
    (builds_reads c b Hb), (builds_inferences c b Hb).
  assert (Hcb : constructions b = constructions d1).
  { unfold b, constructions. rewrite collect_cons. apply app_nil_r. }
  rewrite !app_nil_r, Hcb.
  assert (Hi : inferences [EvInference p text vd rr] = [(p, output_of rr)])
    by reflexivity.
  rewrite Hi, Hout. clear Hi.
  repeat split; auto.
  - unfold extends in *. cbn. rewrite Hd1. reflexivity.
  - rewrite <- Hcb. apply (builds_constructions c b Hb).
  - destruct r as [a|e]; eauto.
Qed.

(** ** The NaN-recovery controller *)

Lemma bind_assoc {A B C} (m : M A) (f : A -> M B) (g : B -> M C) st :
  bind (bind m f) g st = bind m (fun x => bind (f x) g) st.
Proof. unfold bind. destruct (m st) as [[a|e] st1]; reflexivity. Qed.

Lemma bind_ext {A B} (m : M A) (k k' : A -> M B) st :
  (forall a st1, k a st1 = k' a st1) -> bind m k st = bind m k' st.
Proof. intros H. unfold bind. destruct (m st) as [[a|e] st1]; auto. Qed.

(** [generate_mp3] is two attempts around an eviction. *)
Lemma generate_mp3_attempts W text v st :
  generate_mp3 W text v st =
  (let* c := lift (first_char v) in
   let* a := attempt W c text v in
   if negb (has_nan a) then _audio_to_mp3 W a
   else
     pipelines_pop c ;;;
     let* a := attempt W c text v in
     if has_nan a then raise nan_after_reload
     else
       modify (fun st => State (pipelines st) (nan_recoveries st + 1)
                           (next_pid st) (trace st)) ;;;
       _audio_to_mp3 W a) st.
Proof.
  unfold generate_mp3, attempt. apply bind_ext. intros c st1.
  rewrite !bind_assoc. apply bind_ext. intros p st2.
  rewrite !bind_assoc. apply bind_ext. intros vd st3.
  apply bind_ext. intros a st4.
  destruct (negb (has_nan a)); [reflexivity|].
  apply bind_ext. intros _ st5.
  rewrite !bind_assoc. apply bind_ext. intros p' st6.
  rewrite !bind_assoc. reflexivity.
Qed.

Lemma constructions_all_app c d2 d1 :
  Forall (fun x => x.1 = c) (constructions d2) ->
  Forall (fun x => x.1 = c) (constructions d1) ->
  Forall (fun x => x.1 = c) (constructions (d2 ++ d1)).
Proof. intros H2 H1. rewrite constructions_app. apply Forall_app_2; auto. Qed.

Theorem generate_mp3_cases W text v c st r st' :
  first_char v = Ok c ->
  generate_mp3 W text v st = (r, st') ->
  exists d, extends st st' d
    /\ reads d = []
    /\ Forall (fun x => x.1 = c) (constructions d)
    /\ (forall k, k ≠ c -> pipelines st' !! k = pipelines st !! k)
    /\ generate_mp3_run c st st' d r.
Proof.
  intros Hc H. rewrite generate_mp3_attempts in H.
  unfold lift at 1 in H. unfold bind at 1 in H. rewrite Hc in H.
  apply bind_inv in H as [(a1 & st1 & Ha1 & H)|(e & Ha1 & ->)];
    apply attempt_spec in Ha1
      as (dA & HdA & HnA & HevA & HenA & HrdA & HcA & HoA & HrA).
  2:{ exists dA. repeat split; auto.
      apply first_attempt_failed; eauto. }
  destruct HrA as (p1 & HiA & HpA & HcaseA).
  destruct (has_nan a1) eqn:Hnan1; cbn [negb] in H.
  2:{ apply _audio_to_mp3_spec in H as (rr & ->).
      exists ([EvEncode a1 rr] ++ dA). repeat split; auto.
      - unfold extends in *. cbn. rewrite HdA. reflexivity.
      - rewrite reads_app, HrdA. reflexivity.
      - apply constructions_all_app; [constructor | exact HcA].
      - apply (first_attempt_clean _ _ _ _ _ p1 a1); auto.
        + rewrite inferences_app, HiA. reflexivity.
        + rewrite evictions_app, HevA. reflexivity.
        + rewrite encoded_app, HenA. reflexivity. }
  apply bind_inv in H as [(old & st2 & Hpop & H)|(e & Hpop & _)];
    unfold pipelines_pop in Hpop; [|discriminate].
  injection Hpop as <- <-.
  rewrite HpA, lookup_insert_eq in H.
  set (ev := EvEvict c (Some p1)) in *.
  set (st2 := State _ _ _ _) in H.
  assert (Hd2 : extends st st2 ([ev] ++ dA)).
  { unfold extends in *. cbn. rewrite HdA. reflexivity. }
  assert (Hev2 : evictions ([ev] ++ dA) = [(c, Some p1)]).
  { rewrite evictions_app, HevA. reflexivity. }
  assert (Hi2 : inferences ([ev] ++ dA) = [(p1, Some a1)]).
  { rewrite inferences_app, HiA. reflexivity. }
  assert (Hen2 : encoded ([ev] ++ dA) = []).
  { rewrite encoded_app, HenA. reflexivity. }
  assert (Hrd2 : reads ([ev] ++ dA) = []).
  { rewrite reads_app, HrdA. reflexivity. }
  assert (Hc2 : Forall (fun x => x.1 = c) (constructions ([ev] ++ dA))).
  { apply constructions_all_app; [constructor | exact HcA]. }
  assert (Ho2 : forall k, k ≠ c -> pipelines st2 !! k = pipelines st !! k).
  { intros k Hk. cbn. rewrite lookup_delete_ne by congruence.
    apply lookup_insert_ne. congruence. }
  apply bind_inv in H as [(a2 & st3 & Ha2 & H)|(e & Ha2 & ->)];
    apply attempt_spec in Ha2
      as (dB & HdB & HnB & HevB & HenB & HrdB & HcB & HoB & HrB).
  2:{ exists (dB ++ [ev] ++ dA). repeat split.
      - eapply extends_trans; eassumption.
      - rewrite reads_app, Hrd2, HrdB. reflexivity.
      - apply constructions_all_app; assumption.
      - intros k Hk. rewrite HoB, Ho2; auto.
      - apply (retry_failed _ _ _ _ _ p1 a1); eauto.
        + rewrite inferences_app, Hi2.
          destruct HrB as [->|(p2 & ->)]; eauto.
        + rewrite evictions_app, Hev2, HevB. reflexivity.
        + rewrite encoded_app, Hen2, HenB. reflexivity.
        + rewrite HnB. exact HnA. }
  destruct HrB as (p2 & HiB & HpB & HcaseB).
  cbn [pipelines st2] in HcaseB, HpB.
  rewrite lookup_delete_eq in HcaseB.
  destruct HcaseB as [(? & _)|(_ & Hp2 & Hnp & HconB)]; [discriminate|].
  cbn [next_pid st2] in Hp2.
  rewrite insert_delete_eq, insert_insert_eq in HpB.
  assert (Hlt : wf_state st -> (p1 < p2)%nat).
  { intros Hwf. destruct HcaseA as [(Hin & Heq & _)|(_ & -> & Heq & _)].
    - apply Hwf in Hin. lia.
    - lia. }
  assert (Hi3 : inferences (dB ++ [ev] ++ dA) = [(p1, Some a1); (p2, Some a2)]).
  { rewrite inferences_app, Hi2, HiB. reflexivity. }
  assert (Hev3 : evictions (dB ++ [ev] ++ dA) = [(c, Some p1)]).
  { rewrite evictions_app, Hev2, HevB. reflexivity. }
  destruct (has_nan a2) eqn:Hnan2.
  - injection H as <- <-.
    exists (dB ++ [ev] ++ dA). repeat split.
    + eapply extends_trans; eassumption.
    + rewrite reads_app, Hrd2, HrdB. reflexivity.
    + apply constructions_all_app; assumption.
    + intros k Hk. rewrite HoB, Ho2; auto.
    + apply (retry_nan _ _ _ _ _ p1 a1 p2 a2 dB dA); auto.
      * rewrite encoded_app, Hen2, HenB. reflexivity.
      * rewrite HnB. exact HnA.
  - apply bind_inv in H as [([] & st4 & Hmod & H)|(e & Hmod & _)];
      unfold modify in Hmod; [|discriminate].
    injection Hmod as <-.
    apply _audio_to_mp3_spec in H as (rr & ->).
    exists ([EvEncode a2 rr] ++ dB ++ [ev] ++ dA). repeat split.
    + apply (extends_trans st st3); [eapply extends_trans; eassumption|].
      reflexivity.
    + rewrite !reads_app, HrdA, HrdB. reflexivity.
    + apply constructions_all_app; [constructor|].
      apply constructions_all_app; assumption.
    + intros k Hk. cbn. rewrite HoB, Ho2; auto.
    + apply (recovered _ _ _ _ _ p1 a1 p2 a2 ([EvEncode a2 rr] ++ dB) dA); auto.
      * rewrite inferences_app, Hi3. reflexivity.
      * rewrite constructions_app, HconB. reflexivity.
      * rewrite evictions_app, Hev3. reflexivity.
      * rewrite encoded_app, encoded_app, Hen2, HenB. reflexivity.
      * cbn. rewrite HnB. cbn. rewrite HnA. reflexivity.
Qed.

(** ** The request handler *)

Lemma tts_cases W req st r st' :
  tts W req st = (r, st') ->
  turned_away req st st'
  /\ match r with
     | Ok resp => is_json_error 400 resp \/ is_json_error 413 resp
     | Raise _ => True
     end
  \/ exists text v, synthesized W req st st' r text v.
Proof.
  unfold tts. intros H.
  destruct (declared_length W req) as [n|] eqn:Hlen.
  2:{ injection H as <- <-. left. split; [left; reflexivity|].
      left. eexists. reflexivity. }
  destruct (n >? MAX_BODY_SIZE) eqn:Hsmall.
  { injection H as <- <-. left. split; [left; reflexivity|].
    right. eexists. reflexivity. }
  apply bind_inv in H as [(data & st1 & Hread & H)|(e & Hread & ->)];
    unfold rfile_read in Hread; destruct (n <? -1); try discriminate.
  2:{ injection Hread as <- <-. left. split; [left; reflexivity | exact I]. }
  injection Hread as <- <-.
  set (data := read_bytes req n) in *.
  assert (Haway : turned_away req st (log (EvRead n data) st))
    by (right; eauto).
  destruct (w_json_loads W data) as [body|e] eqn:Hjson.
  2:{ destruct (String.eqb _ _); injection H as <- <-; left;
        (split; [exact Haway|]); [left; eexists; reflexivity | exact I]. }
  apply bind_inv in H as [(text & st1 & Htext & H)|(e & Htext & ->)];
    unfold lift in Htext; injection Htext as Htext <-.
  2:{ left. split; [exact Haway | exact I]. }
  apply bind_inv in H as [(voice & st1 & Hvoice & H)|(e & Hvoice & ->)];
    unfold lift in Hvoice; injection Hvoice as Hvoice <-.
  2:{ left. split; [exact Haway | exact I]. }
  destruct (truthy text) eqn:Htruthy; cbn [negb] in H.
  2:{ injection H as <- <-. left. split; [exact Haway|].
      left. eexists. reflexivity. }
  apply bind_inv in H as [(len & st1 & Hlen' & H)|(e & Hlen' & ->)];
    unfold lift in Hlen'; injection Hlen' as Hlen' <-.
  2:{ left. split; [exact Haway | exact I]. }
  destruct (len >? MAX_TEXT_LENGTH).
  { injection H as <- <-. left. split; [exact Haway|].
    left. eexists. reflexivity. }
  destruct voice as [| | | |v| |];
    try (injection H as <- <-; left; split; [exact Haway | exact I]).
  destruct (VOICE_PATTERN_match v) eqn:Hmatch; cbn [negb] in H.
  2:{ injection H as <- <-. left. split; [exact Haway|].
      left. eexists. reflexivity. }
  apply bind_inv in H as [(sl & st1 & Hsl & H)|(e & Hsl & ->)];
    unfold lift in Hsl; injection Hsl as Hsl <-.
  2:{ left. split; [exact Haway | exact I]. }
  right. exists text, v.
  unfold bind at 1 in H.
  destruct (generate_mp3 W text v (log (EvRead n data) st))
    as [[mp3|e] st2] eqn:Hrun; injection H as <- <-;
    eapply Synthesized; eauto.
Qed.

Lemma first_char_of_match v :
  VOICE_PATTERN_match v = true ->
  exists ch rest, v = String ch rest /\ first_char v = Ok (String ch "").
Proof. destruct v as [|ch rest]; [discriminate|]. intros _. eauto. Qed.

(** A [/tts] request either is turned away, with a JSON error and nothing
    but the read of its body done, or runs [generate_mp3] for the first
    character of its voice. *)
Theorem do_POST_tts_cases W req st resp st' d :
  path req = "/tts" ->
  do_POST W req st = (resp, st') ->
  extends st st' d ->
  (turned_away req st st'
   /\ (is_json_error 400 resp \/ is_json_error 413 resp \/ is_json_error 500 resp))
  \/ (exists text v r c n data dg rg,
         synthesized W req st st' r text v
         /\ first_char v = Ok c
         /\ d = dg ++ [EvRead n data]
         /\ reads dg = []
         /\ Forall (fun x => x.1 = c) (constructions dg)
         /\ (forall k, k ≠ c -> pipelines st' !! k = pipelines st !! k)
         /\ generate_mp3_run c (log (EvRead n data) st) st' dg rg
         /\ resp = match rg with
                   | Ok mp3 => AudioResponse mp3
                   | Raise e => _json 500 (error_body (exn_msg e))
                   end).
Proof.
  intros Hpath H Hd. unfold do_POST in H. rewrite Hpath in H. cbn in H.
  destruct (tts W req st) as [r st1] eqn:Htts.
  assert (st1 = st') as -> by (destruct r; injection H; auto).
  apply tts_cases in Htts as [[Haway Hr]|(text & v & Hsyn)].
  - left. split; [exact Haway|].
    destruct r as [resp'|e]; injection H as <-.
    + destruct Hr; auto.
    + right; right. eexists. reflexivity.
  - right. pose proof Hsyn as Hsyn'.
    destruct Hsyn as [n data body rg _ _ _ _ _ _ _ Hmatch Hrun ->].
    apply first_char_of_match in Hmatch as (ch & rest & -> & Hc).
    destruct (generate_mp3_cases _ _ _ _ _ _ _ Hc Hrun)
      as (dg & Hdg & Hrd & Hcs & Hother & Hcases).
    exists text, (String ch rest). eexists.
    exists (String ch ""), n, data, dg, rg.
    split; [exact Hsyn'|]. repeat split; auto.
    + eapply extends_unique; [exact Hd|].
      unfold extends in *. rewrite Hdg. cbn. rewrite <- app_assoc. reflexivity.
    + destruct rg; injection H as <-; reflexivity.
Qed.

Lemma turned_away_delta req st st' d :
  turned_away req st st' -> extends st st' d ->
  d = [] \/ exists n data, d = [EvRead n data].
Proof.
  intros [->|(n & data & ->)] Hd.
  - left. eapply extends_unique; [exact Hd | apply extends_refl].
  - right. exists n, data.
    eapply extends_unique; [exact Hd | apply extends_log].
Qed.

Lemma turned_away_quiet req st st' d :
  turned_away req st st' -> extends st st' d ->
  inferences d = [] /\ evictions d = [] /\ constructions d = []
  /\ encoded d = []
  /\ pipelines st' = pipelines st /\ nan_recoveries st' = nan_recoveries st.
Proof.
  intros Haway Hd.
  destruct (turned_away_delta _ _ _ _ Haway Hd) as [->|(n & data & ->)];
    destruct Haway as [->|(n' & data' & ->)]; repeat split; reflexivity.
Qed.

Lemma after_read dg n data :
  inferences (dg ++ [EvRead n data]) = inferences dg
  /\ evictions (dg ++ [EvRead n data]) = evictions dg
  /\ constructions (dg ++ [EvRead n data]) = constructions dg
  /\ encoded (dg ++ [EvRead n data]) = encoded dg.
Proof.
  rewrite inferences_app, evictions_app, constructions_app, encoded_app.
  repeat split; reflexivity.
Qed.

(** ** The two attempts of a recovery *)

















(** ** The properties of the specification *)




(** C4, as amended: for every voice identifier accepted by [POST /tts], the
    language code that selects the pipeline and keys the cache is the first
    character of the identifier: every constructor call and every eviction
    of the request is for that code, the cache changes at that key only, and
    the audio of a successful response comes from the pipeline cached under
    that key. *)
Theorem lang_code_is_first_char W req st resp st' d n body v :
  path req = "/tts" ->
  do_POST W req st = (resp, st') ->
  extends st st' d ->
  declared_length W req = Some n ->
  w_json_loads W (read_bytes req n) = Ok body ->
  py_get body "voice" (PStr "af_heart") = Ok (PStr v) ->
  VOICE_PATTERN_match v = true ->
  exists ch rest,
    v = String ch rest
    /\ Forall (fun x => x.1 = String ch "") (constructions d)
    /\ Forall (fun x => x.1 = String ch "") (evictions d)
    /\ (forall k, k ≠ String ch "" -> pipelines st' !! k = pipelines st !! k)
    /\ (status_of resp = 200 ->
        exists p o, pipelines st' !! String ch "" = Some p
                    /\ last (inferences d) = Some (p, o)).
Proof.
  intros Hpath Hrun Hd Hn Hbody Hv Hmatch.
  destruct (first_char_of_match v Hmatch) as (ch & rest & -> & Hc).
  exists ch, rest. split; [reflexivity|].
  destruct (do_POST_tts_cases _ _ _ _ _ _ Hpath Hrun Hd)
    as [[Haway Hresp]|(text & v' & r & c & n' & data & dg & rg & Hsyn & Hc' &
                       -> & _ & Hcs & Hother & Hcases & ->)].
  { destruct (turned_away_quiet _ _ _ _ Haway Hd) as (_ & -> & -> & _ & -> & _).
    repeat split; auto.
    intros Hst. destruct Hresp as [(m & ->)|[(m & ->)|(m & ->)]]; discriminate. }
  assert (v' = String ch rest) as ->.
  { destruct Hsyn as [n0 data0 body0 rg0 Hn0 _ -> Hb0 _ Hv0 _ _ _ _].
    congruence. }
  assert (c = String ch "") as -> by congruence.
  destruct (after_read dg n' data) as (Ei & Eev & Ec & _).
  rewrite Ei, Eev, Ec. repeat split; auto.
  - destruct Hcases;
      match goal with H : evictions dg = _ |- _ => rewrite H end;
      repeat constructor.
  - intros Hst. destruct Hcases;
      repeat match goal with
             | H : exists _, _ |- _ => destruct H
             | H : pipelines st' = _ |- _ => rewrite H
             | H : inferences dg = _ |- _ => rewrite H
             end; subst; try discriminate;
      eexists _, _; (split; [apply lookup_insert_eq | reflexivity]).
Qed.

(** C7: for every [POST /tts] request whose declared body size exceeds
    1,000,000 bytes, the server responds 413 with a JSON error body and the
    body is not read: the state, history included, is as before. *)
Theorem oversized_body_rejected W req st h n :
  path req = "/tts" ->
  content_length req = Some h ->
  w_int W h = Some n ->
  n > 1000000 ->
  do_POST W req st = (JsonResponse 413 (error_body "Request too large"), st)
  /\ (forall resp st' d,
        do_POST W req st = (resp, st') -> extends st st' d -> d = []).
Proof.
  intros Hpath Hh Hn Hbig.
  assert (E : do_POST W req st
              = (JsonResponse 413 (error_body "Request too large"), st)).
  { unfold do_POST, tts, declared_length. rewrite Hpath, Hh, Hn. cbn.
    assert ((n >? MAX_BODY_SIZE) = true) as ->
      by (unfold MAX_BODY_SIZE; lia).
    reflexivity. }
  split; [exact E|].
  intros resp st' d Hrun Hd. rewrite E in Hrun. injection Hrun as <- <-.
  eapply extends_unique; [exact Hd | apply extends_refl].
Qed.

(** C9: for every language code, when [get_pipeline] constructs a new
    pipeline, the warmup is best effort: whatever the loading of the warmup
    voice and the throwaway pass return or raise, the new pipeline is cached
    and returned, and nothing of the warmup is kept but its trace. *)
Theorem warmup_is_best_effort W c st :
  pipelines st !! c = None ->
  w_KPipeline W (trace st) c = Ok tt ->
  let p := next_pid st in
  let h := EvConstruct c (Ok p) :: trace st in
  get_pipeline W c st
  = (Ok p, State (<[c := p]> (pipelines st)) (nan_recoveries st) (S p)
             (warmup_events W c p h ++ h)).
Proof.
  intros Hc Hk p h.
  unfold get_pipeline, bind, gets, ret, try_except, pipelines_setitem, modify,
    pipelines_getitem, KPipeline, load_voice, warmup_pass, log, warmup_events.
  rewrite Hc. cbn. rewrite Hk. cbn. fold p. fold h.
  destruct (w_load_voice W h p (warmup_voice_of c)) as [vd|e]; cbn.
  - destruct (w_pipe W _ p (PStr "warmup") vd); cbn;
      rewrite lookup_insert_eq; reflexivity.
  - rewrite lookup_insert_eq. reflexivity.
Qed.

(** C10, as amended: for every [POST /tts] request within the size limit
    whose body is a JSON object, if ["text"] is truthy and either has no
    length (a number or [true]) or passes the length check while ["voice"]
    is not a string, the handler answers 500 with a JSON error and does not
    synthesize. *)
Theorem non_string_field_gives_500 W req st n body text voice :
  path req = "/tts" ->
  declared_length W req = Some n ->
  n <= 1000000 ->
  w_json_loads W (read_bytes req n) = Ok body ->
  py_get body "text" (PStr "") = Ok text ->
  py_get body "voice" (PStr "af_heart") = Ok voice ->
  truthy text = true ->
  match py_len text with
  | Raise _ => True
  | Ok len => len <= 10000 /\ is_str voice = false
  end ->
  exists msg st',
    do_POST W req st = (JsonResponse 500 (error_body msg), st')
    /\ turned_away req st st'.
Proof.
  intros Hpath Hn Hsmall Hbody Htext Hvoice Htruthy Hshape.
  unfold do_POST, tts, rfile_read. rewrite Hpath, Hn. cbn.
  assert ((n >? MAX_BODY_SIZE) = false) as ->
    by (unfold MAX_BODY_SIZE; lia).
  unfold bind at 1. destruct (n <? -1).
  { cbn. eexists _, _. split; [reflexivity | left; reflexivity]. }
  rewrite Hbody.
  unfold bind, lift. rewrite Htext, Hvoice, Htruthy. cbn [negb].
  destruct (py_len text) as [len|e]; cbn.
  2:{ eexists _, _. split; [reflexivity | right; eauto]. }
  destruct Hshape as [Hlen Hstr].
  assert ((len >? MAX_TEXT_LENGTH) = false) as ->
    by (unfold MAX_TEXT_LENGTH; lia).
  destruct voice; try discriminate; cbn;
    (eexists _, _; split; [reflexivity | right; eauto]).
Qed.

(** *** Keeping a property of the state through the server *)

Section Keeps.

Variable I : state -> Prop.

Lemma keeps_ret {A} (a : A) : keeps I (ret a).
Proof. intros st r st' HI [= <- <-]. exact HI. Qed.

Lemma keeps_raise {A} e : keeps I (@raise A e).
Proof. intros st r st' HI [= <- <-]. exact HI. Qed.

Lemma keeps_lift {A} (x : result A) : keeps I (lift x).
Proof. intros st r st' HI [= <- <-]. exact HI. Qed.

Lemma keeps_bind {A B} (m : M A) (k : A -> M B) :
  keeps I m -> (forall a, keeps I (k a)) -> keeps I (bind m k).
Proof.
  intros Hm Hk st r st' HI H.
  apply bind_inv in H as [(a & st1 & H1 & H2)|(e & H1 & _)].
  - eapply Hk; [|exact H2]. eapply Hm; eassumption.
  - eapply Hm; eassumption.
Qed.

Lemma keeps_if {A} (b : bool) (m1 m2 : M A) :
  keeps I m1 -> keeps I m2 -> keeps I (if b then m1 else m2).
Proof. destruct b; auto. Qed.

(** What the property has to survive: an event that touches no pipeline,
    the count of a recovery, an eviction, and [get_pipeline]. *)
Variable W : World.
Hypothesis I_log : forall e st, plain e -> I st -> I (log e st).
Hypothesis I_count :
  forall st, I st ->
    I (State (pipelines st) (nan_recoveries st + 1) (next_pid st) (trace st)).
Hypothesis I_pop : forall c, keeps I (pipelines_pop c).
Hypothesis I_get_pipeline : forall c, keeps I (get_pipeline W c).












End Keeps.

(** ** The cache invariant *)

Lemma live_plain e h : plain e -> live (e :: h) = live h.
Proof. destruct e; simpl; solve [contradiction | reflexivity]. Qed.

Lemma good_plain e h : plain e -> good h -> good (e :: h).
Proof.
  intros He Hg. cbn [good]. unfold one_per_code. rewrite (live_plain e h He).
  repeat split.
  - destruct h as [|e' h']; [constructor | apply Hg].
  - destruct e; solve [contradiction | exact I].
  - exact Hg.
Qed.

Lemma good_one_per_code h : good h -> one_per_code h.
Proof. destruct h; [constructor | intros H; apply H]. Qed.

Lemma warm_plain e : warm_ev e -> plain e.
Proof. destruct e; simpl; auto. Qed.

Lemma live_warm w h : Forall warm_ev w -> live (w ++ h) = live h.
Proof.
  induction 1 as [|e w He _ IH]; [reflexivity|].
  cbn [app]. rewrite live_plain by (apply warm_plain, He). exact IH.
Qed.

Lemma good_warm w h : Forall warm_ev w -> good h -> good (w ++ h).
Proof.
  induction 1 as [|e w He _ IH]; [auto|].
  intros Hg. cbn [app]. apply good_plain; [apply warm_plain, He | auto].
Qed.

Lemma Inv_log e st : plain e -> Inv st -> Inv (log e st).
Proof.
  intros He [Hg Hl]. split; unfold log; cbn [trace pipelines].
  - apply good_plain; assumption.
  - rewrite live_plain by exact He. exact Hl.
Qed.

Lemma Inv_keys st c :
  Inv st -> pipelines st !! c = None -> c ∉ (live (trace st)).*1.
Proof.
  intros [_ Hl] Hc. rewrite Hl. intros Hin.
  apply list_elem_of_fmap in Hin as ([k p] & -> & Hin).
  apply elem_of_map_to_list in Hin. cbn in Hc. congruence.
Qed.

Lemma Inv_initial : Inv initial.
Proof. split; cbn; [exact I|]. rewrite map_to_list_empty. reflexivity. Qed.

(** The eviction keeps the invariant: the evicted pipeline stops being
    live when it leaves the cache. *)
Lemma Inv_pop c : keeps Inv (pipelines_pop c).
Proof.
  intros st r st' [Hg Hl] H. unfold pipelines_pop in H.
  injection H as <- <-.
  destruct (pipelines st !! c) as [p|] eqn:Hc.
  - assert (Hlive : live (EvEvict c (Some p) :: trace st)
                    ≡ₚ map_to_list (delete c (pipelines st))).
    { cbn [live]. rewrite Hl.
      rewrite <- (map_to_list_delete (pipelines st) c p Hc).
      rewrite filter_cons_False by (intros Hne; apply Hne; reflexivity).
      assert (Hall : Forall (fun x => x ≠ (c, p))
                       (map_to_list (delete c (pipelines st)))).
      { apply Forall_forall. intros [k q] Hin [= -> ->].
        apply elem_of_map_to_list in Hin.
        rewrite lookup_delete_eq in Hin. discriminate. }
      induction Hall as [|x l Hx _ IH]; [reflexivity|].
      rewrite filter_cons_True by exact Hx. f_equiv. exact IH. }
    split; cbn [trace pipelines]; [|exact Hlive].
    cbn [good]. repeat split; [|exact Hg].
    unfold one_per_code. rewrite Hlive. apply NoDup_fst_map_to_list.
  - rewrite delete_id by exact Hc. split; cbn [trace pipelines].
    + cbn [good]. repeat split; [|exact Hg].
      unfold one_per_code. cbn [live]. apply good_one_per_code, Hg.
    + exact Hl.
Qed.

(** [get_pipeline] keeps the invariant: it constructs only for a code
    that has no cached, hence no live, pipeline. *)
Lemma Inv_get_pipeline W c : keeps Inv (get_pipeline W c).
Proof.
  intros st r st' HI H.
  apply get_pipeline_cases in H
    as [(p & Hc & -> & ->)|[(e & Hc & -> & _ & ->)
                           |(w & Hc & -> & _ & Hw & _ & ->)]]; [exact HI|..].
  - pose proof (Inv_keys st c HI Hc) as Hfree. destruct HI as [Hg Hl].
    split; unfold log; cbn [trace pipelines]; [|exact Hl].
    cbn [good]. repeat split; auto.
    unfold one_per_code. cbn [live]. apply good_one_per_code, Hg.
  - pose proof (Inv_keys st c HI Hc) as Hfree. destruct HI as [Hg Hl].
    set (h := EvConstruct c (Ok (next_pid st)) :: trace st).
    assert (Hlive : live h ≡ₚ map_to_list (<[c := next_pid st]> (pipelines st))).
    { cbn. rewrite map_to_list_insert by exact Hc. f_equiv. exact Hl. }
    assert (Hgood : good h).
    { cbn [good h]. repeat split; auto.
      unfold one_per_code. fold h. rewrite Hlive. apply NoDup_fst_map_to_list. }
    split; cbn [trace pipelines]; fold h.
    + apply good_warm; assumption.
    + rewrite live_warm by exact Hw. exact Hlive.
Qed.



(** *** Fresh identities *)








(** ** Voice discovery and the voice pattern *)

#[local] Instance le_total : Total PyStr.le.
Proof. intros s1 s2. apply String.leb_total. Qed.

Lemma list_voices_sorted listing : Sorted PyStr.le (list_voices listing).
Proof. apply Sorted_merge_sort, _. Qed.

Lemma replace_keeps_first_char c rest :
  c ≠ "."%char ->
  PyStr.replace ".pt" "" (String c rest)
  = String c (PyStr.replace_from ".pt" "" 0 rest).
Proof.
  intros Hc. unfold PyStr.replace.
  cbn [PyStr.replace_from String.prefix].
  destruct (Ascii.ascii_dec "." c) as [<-|_]; [contradiction|reflexivity].
Qed.

Lemma list_voices_not_hidden listing v :
  v ∈ list_voices listing -> PyStr.startswith "." v = false.
Proof.
  unfold list_voices, PyStr.sorted. rewrite merge_sort_Permutation.
  rewrite list_elem_of_In. intros Hin.
  apply in_map_iff in Hin as (f & <- & Hf).
  apply filter_In in Hf as [_ Hf].
  apply andb_true_iff in Hf as [_ Hdot].
  apply negb_true_iff in Hdot.
  destruct f as [|c rest]; [reflexivity|].
  unfold PyStr.startswith in *. cbn [String.prefix] in Hdot.
  destruct (Ascii.ascii_dec "." c) as [<-|Hne].
  - destruct rest; discriminate.
  - rewrite replace_keeps_first_char by congruence. cbn [String.prefix].
    destruct (Ascii.ascii_dec "." c); [contradiction | reflexivity].
Qed.

Lemma newline_is_no_name_char : is_name_char newline = false.
Proof. reflexivity. Qed.

Lemma match_name_tail_spec s :
  match_name_tail s = true <->
  all_name_chars s = true
  \/ exists p, s = (p ++ String newline "")%string /\ all_name_chars p = true.
Proof.
  induction s as [|c s IH]; cbn.
  - split; auto.
  - destruct (is_name_char c) eqn:Hc; cbn.
    + rewrite IH. split.
      * intros [H|(p & -> & H)]; [left; exact H|].
        right. exists (String c p). cbn. rewrite Hc. auto.
      * intros [H|(p & Hp & H)]; [left; exact H|].
        destruct p as [|c' p]; cbn in Hp; injection Hp as -> ->.
        -- rewrite newline_is_no_name_char in Hc. discriminate.
        -- cbn in H. rewrite Hc in H. right. eauto.
    + split.
      * intros H. apply andb_true_iff in H as [Hn He].
        apply Ascii.eqb_eq in Hn as ->. apply String.eqb_eq in He as ->.
        right. exists ""%string. auto.
      * intros [H|(p & Hp & H)]; [discriminate|].
        destruct p as [|c' p]; cbn in Hp; injection Hp as -> ->.
        -- reflexivity.
        -- cbn in H. rewrite Hc in H. discriminate.
Qed.

(** X22: what [VOICE_PATTERN.match] accepts: the voices of the grammar, and
    each of them followed by one newline, and nothing else. *)
Lemma VOICE_PATTERN_match_spec s :
  VOICE_PATTERN_match s = true <->
  voice_in_grammar s = true
  \/ exists p, s = (p ++ String newline "")%string /\ voice_in_grammar p = true.
Proof.
  split.
  - destruct s as [|a [|b [|u [|c rest]]]]; try discriminate.
    cbn [VOICE_PATTERN_match voice_in_grammar]. intros H.
    apply andb_true_iff in H as [Hhead Htail].
    apply match_name_tail_spec in Htail as [Htail|(p & -> & Htail)].
    + left. apply andb_true_iff. split; assumption.
    + right. exists (String a (String b (String u (String c p)))).
      split; [reflexivity|].
      cbn [voice_in_grammar]. apply andb_true_iff. split; assumption.
  - intros [H|(p & -> & H)].
    + destruct s as [|a [|b [|u [|c rest]]]]; try discriminate.
      cbn [VOICE_PATTERN_match voice_in_grammar] in *.
      apply andb_true_iff in H as [Hhead Htail].
      apply andb_true_iff. split; [exact Hhead|].
      apply match_name_tail_spec. left. exact Htail.
    + destruct p as [|a [|b [|u [|c rest]]]]; try discriminate.
      cbn [VOICE_PATTERN_match voice_in_grammar String.append] in *.
      apply andb_true_iff in H as [Hhead Htail].
      apply andb_true_iff. split; [exact Hhead|].
      apply match_name_tail_spec. right. eauto.
Qed.

(** X23: the part of the voice check that holds: a voice that
    [VOICE_PATTERN.match] rejects is answered 400 with the voice in the
    message, and nothing is synthesized. *)
Lemma unmatched_voice_gets_400 W req st n body text len v :
  path req = "/tts" ->
  declared_length W req = Some n ->
  -1 <= n <= 1000000 ->
  w_json_loads W (read_bytes req n) = Ok body ->
  py_get body "text" (PStr "") = Ok text ->
  py_get body "voice" (PStr "af_heart") = Ok (PStr v) ->
  truthy text = true ->
  py_len text = Ok len -> len <= 10000 ->
  VOICE_PATTERN_match v = false ->
  do_POST W req st
  = (JsonResponse 400 (error_body ("Invalid voice name: " ++ v)%string),
     log (EvRead n (read_bytes req n)) st).
Proof.
  intros Hpath Hn Hsize Hbody Htext Hvoice Htruthy Hlen Hshort Hmatch.
  unfold do_POST, tts, rfile_read. rewrite Hpath, Hn. cbn.
  assert ((n >? MAX_BODY_SIZE) = false) as ->
    by (unfold MAX_BODY_SIZE; lia).
  unfold bind at 1.
  assert ((n <? -1) = false) as -> by lia.
  rewrite Hbody. unfold bind, lift.
  rewrite Htext, Hvoice, Htruthy, Hlen. cbn [negb].
  assert ((len >? MAX_TEXT_LENGTH) = false) as ->
    by (unfold MAX_TEXT_LENGTH; lia).
  rewrite Hmatch. reflexivity.
Qed.

(** ** The properties at concrete requests *)






(** *** C1 *)



(** *** C2 *)



(** *** C3 *)



(** *** C4 *)

Lemma lang_code_is_first_char_witness :
  let W := scripted hello [clean] in
  let st' := (do_POST W post_tts initial).2 in
  let d := trace st' in
  exists ch rest,
    "af_heart" = String ch rest
    /\ Forall (fun x => x.1 = String ch "") (constructions d)
    /\ Forall (fun x => x.1 = String ch "") (evictions d)
    /\ (forall k, k ≠ String ch "" ->
                  pipelines st' !! k = pipelines initial !! k)
    /\ (status_of (do_POST W post_tts initial).1 = 200 ->
        exists p o, pipelines st' !! String ch "" = Some p
                    /\ last (inferences d) = Some (p, o)).
Proof.
  intros W st' d.
  apply (lang_code_is_first_char W post_tts initial
           (do_POST W post_tts initial).1 st' d 20 hello "af_heart");
    vm_compute; reflexivity.
Defined.

(** C4 as stated fails: for the voice [af_heart] the pipeline is
    constructed for, and cached under, the one character [a], not the pair
    [af]. *)
Lemma lang_code_is_not_a_pair :
  let W := scripted hello [clean] in
  let st' := (do_POST W post_tts initial).2 in
  VOICE_PATTERN_match "af_heart" = true
  /\ substring 0 2 "af_heart" = "af"
  /\ constructions (trace st') = [("a", Ok 0%nat)]
  /\ pipelines st' !! "a" = Some 0%nat
  /\ pipelines st' !! "af" = None.
Proof. repeat split; vm_compute; reflexivity. Qed.

(** *** C5 *)

(** C5 at a directory that holds [a.ptb.pt]: [replace] drops every [.pt],
    not the suffix alone, so the voice is listed as [ab] where stripping the
    suffix gives [a.ptb]; [GET] and [POST] agree.  The list is sorted and
    has no hidden entry. *)
Theorem voices_strip_every_pt :
  let W := with_listing (scripted hello []) ["b.pt"; "a.ptb.pt"; ".x.pt"; "a.pt"] in
  (do_GET W get_voices initial).1
  = Ok (JsonResponse 200 (voices_body ["a"; "ab"; "b"]))
  /\ (do_POST W (Request POST "/voices" None "") initial).1
     = JsonResponse 200 (voices_body ["a"; "ab"; "b"])
  /\ PyStr.replace ".pt" "" "a.ptb.pt" = "ab"
  /\ strip_suffix ".pt" "a.ptb.pt" = "a.ptb"
  /\ Sorted PyStr.le (list_voices ["b.pt"; "a.ptb.pt"; ".x.pt"; "a.pt"])
  /\ (forall v, v ∈ list_voices ["b.pt"; "a.ptb.pt"; ".x.pt"; "a.pt"] ->
                PyStr.startswith "." v = false).
Proof.
  repeat split; try (vm_compute; reflexivity).
  - apply list_voices_sorted.
  - apply list_voices_not_hidden.
Qed.

(** *** C6 *)

(** C6 at the voice [af_heart] followed by a newline: it is outside the
    grammar of the pattern, yet [VOICE_PATTERN.match] accepts it, and the
    request is synthesized instead of being answered 400. *)
Theorem trailing_newline_is_accepted :
  let W := scripted (say (PStr "hello") (PStr heart_newline)) [clean] in
  let st' := (do_POST W post_tts initial).2 in
  voice_in_grammar heart_newline = false
  /\ VOICE_PATTERN_match heart_newline = true
  /\ (do_POST W post_tts initial).1 = AudioResponse "mp3"
  /\ inference_count (trace st') = 1%nat
  /\ In (EvLoadVoice 0%nat heart_newline (Ok 0%nat)) (trace st').
Proof.
  repeat split; try (vm_compute; reflexivity).
  vm_compute. right; right; left. reflexivity.
Qed.

(** *** C7 *)

Lemma oversized_body_rejected_witness :
  let W := scripted hello [] in
  do_POST W big_post initial
  = (JsonResponse 413 (error_body "Request too large"), initial)
  /\ (forall resp st' d,
        do_POST W big_post initial = (resp, st') -> extends initial st' d ->
        d = []).
Proof.
  intros W.
  apply (oversized_body_rejected W big_post initial "1000001" 1000001);
    solve [reflexivity | lia].
Defined.

(** *** C8 *)



(** *** C9 *)

(** The warmup voice cannot be loaded: the exception is swallowed and the
    pipeline is cached and returned all the same. *)
Lemma warmup_is_best_effort_witness :
  let W := without_warmup_voice (scripted hello []) in
  get_pipeline W "a" initial
  = (Ok 0%nat,
     State (<["a" := 0%nat]> ∅) 0 1%nat
       [EvLoadVoice 0%nat "af_alloy"
          (Raise (Exn "FileNotFoundError" "af_alloy.pt"));
        EvConstruct "a" (Ok 0%nat)]).
Proof.
  intros W.
  apply (warmup_is_best_effort W "a" initial); reflexivity.
Defined.

(** *** C10 *)

Lemma non_string_field_gives_500_witness :
  let W := scripted (say (PInt 5) (PStr "af_heart")) [] in
  exists msg st',
    do_POST W post_tts initial = (JsonResponse 500 (error_body msg), st')
    /\ turned_away post_tts initial st'.
Proof.
  intros W.
  apply (non_string_field_gives_500 W post_tts initial 20
           (say (PInt 5) (PStr "af_heart")) (PInt 5) (PStr "af_heart"));
    solve [reflexivity | lia | exact I].
Defined.

(** C10 as stated fails twice.  A body whose ["voice"] is the number 5
    and that has no ["text"] is answered 400, not 500; and a body whose
    ["text"] is a non-empty list passes the length check and is handed to
    the pipeline, here with a 200. *)
Lemma non_string_field_without_500 :
  let number_voice := PDict [("voice", PInt 5)] in
  let list_text := say (PList [PStr "hi"]) (PStr "af_heart") in
  truthy (PInt 5) = true /\ is_str (PInt 5) = false
  /\ (do_POST (scripted number_voice []) post_tts initial).1
     = JsonResponse 400 (error_body "No text provided")
  /\ truthy (PList [PStr "hi"]) = true /\ is_str (PList [PStr "hi"]) = false
  /\ (do_POST (scripted list_text [clean]) post_tts initial).1
     = AudioResponse "mp3".
Proof. repeat split; vm_compute; reflexivity. Qed.

(** ** Further properties of the code *)

(** *** Inference and encoding *)

Lemma has_nan_app (a b : audio) : has_nan (a ++ b) = has_nan a || has_nan b.
Proof. apply existsb_app. Qed.

Lemma has_nan_concat (chunks : list audio) :
  has_nan (List.concat chunks) = existsb has_nan chunks.
Proof.
  induction chunks as [|c cs IH]; [reflexivity|].
  cbn [List.concat existsb]. rewrite has_nan_app, IH. reflexivity.
Qed.

Lemma length_concat_sum (chunks : list audio) :
  length (List.concat chunks) = list_sum (List.map (@length sample) chunks).
Proof.
  induction chunks as [|c cs IH]; [reflexivity|].
  cbn [List.concat List.map list_sum]. rewrite length_app, IH. reflexivity.
Qed.

(** X1: when [_run_inference] returns a buffer, the pipeline produced at
    least one chunk, the buffer is the chunks joined in the order they came,
    its length is the sum of theirs, and it has a NaN exactly when one of
    the chunks has. *)
Theorem run_inference_joins_chunks W p text v st a st' :
  _run_inference W p text v st = (Ok a, st') ->
  exists chunks,
    w_pipe W (trace st) p text v = Ok chunks
    /\ chunks ≠ []
    /\ a = List.concat chunks
    /\ length a = list_sum (List.map (@length sample) chunks)
    /\ has_nan a = existsb has_nan chunks
    /\ st' = log (EvInference p text v (Ok chunks)) st.
Proof.
  unfold _run_inference.
  destruct (w_pipe W (trace st) p text v) as [[|c cs]|e]; try discriminate.
  intros [= <- <-]. exists (c :: cs).
  split; [reflexivity|]. split; [discriminate|].
  split; [reflexivity|].
  split; [apply (length_concat_sum (c :: cs))|].
  split; [apply (has_nan_concat (c :: cs)) | reflexivity].
Qed.

Lemma string_length_app (s1 s2 : string) :
  String.length (s1 ++ s2)%string = (String.length s1 + String.length s2)%nat.
Proof. induction s1 as [|c s1 IH]; simpl; [reflexivity | congruence]. Qed.

Lemma string_length_substring_0 (n : nat) (s : string) :
  (String.length (substring 0 n s) <= n)%nat.
Proof.
  revert s. induction n as [|n IH]; intros [|c s]; cbn; try lia.
  specialize (IH s). lia.
Qed.

(** X2: [_audio_to_mp3] returns the output of the encoder exactly when it
    exits with code 0.  Otherwise it raises: when the diagnostic output
    decodes, a [RuntimeError] whose message is [ffmpeg error: ] followed by
    at most 200 characters of the decoded text, hence of at most 214
    characters; when it does not decode, the exception of [decode]. *)
Theorem audio_to_mp3_outcome W a st r st' pr :
  _audio_to_mp3 W a st = (r, st') ->
  w_ffmpeg W (trace st) a = Ok pr ->
  st' = log (EvEncode a (Ok pr)) st
  /\ match r with
     | Ok mp3 => returncode pr = 0 /\ mp3 = stdout pr
     | Raise e =>
         returncode pr ≠ 0
         /\ match w_decode W (stderr pr) with
            | Ok text =>
                e = Exn "RuntimeError"
                      ("ffmpeg error: " ++ PyStr.slice_to 200 text)%string
                /\ (String.length (exn_msg e) <= 214)%nat
            | Raise e' => e = e'
            end
     end.
Proof.
  unfold _audio_to_mp3. intros H Hpr. rewrite Hpr in H.
  destruct (returncode pr =? 0) eqn:Hrc; cbn [negb] in H.
  - injection H as <- <-. split; [reflexivity|]. split; [lia | reflexivity].
  - destruct (w_decode W (stderr pr)) as [text|e'];
      injection H as <- <-; (split; [reflexivity|]); (split; [lia|]);
      [|reflexivity].
    split; [reflexivity|].
    cbn [exn_msg]. rewrite string_length_app. unfold PyStr.slice_to.
    pose proof (string_length_substring_0 200 text). cbn. lia.
Qed.

(** *** The checks of [POST /tts], in the order they are made *)

(** X3: a [Content-Length] that is not a number is answered 400 before
    anything is read. *)
Theorem bad_content_length_gets_400 W req st h :
  path req = "/tts" ->
  content_length req = Some h ->
  w_int W h = None ->
  do_POST W req st
  = (JsonResponse 400 (error_body "Invalid Content-Length"), st).
Proof.
  intros Hpath Hh Hint.
  unfold do_POST, tts, declared_length. rewrite Hpath, Hh, Hint. reflexivity.
Qed.

Lemma read_bytes_0 req : read_bytes req 0 = "".
Proof. unfold read_bytes. cbn. destruct (rfile req); reflexivity. Qed.

(** Once the declared length has passed the size check, the body is read
    once, with that length, and never again. *)
Lemma tts_after_read W req st r st' n :
  declared_length W req = Some n ->
  (n >? MAX_BODY_SIZE) = false ->
  (n <? -1) = false ->
  tts W req st = (r, st') ->
  exists d, extends (log (EvRead n (read_bytes req n)) st) st' d /\ reads d = [].
Proof.
  intros Hn Hsmall Hneg H. unfold tts in H. rewrite Hn, Hsmall in H.
  unfold bind at 1 in H. unfold rfile_read in H. rewrite Hneg in H.
  set (st1 := log (EvRead n (read_bytes req n)) st) in *.
  assert (Hstay : exists d, extends st1 st1 d /\ reads d = [])
    by (exists []; split; reflexivity).
  destruct (w_json_loads W (read_bytes req n)) as [body|e].
  2:{ destruct (String.eqb _ _); injection H as <- <-; exact Hstay. }
  apply bind_inv in H as [(text & st2 & Htext & H)|(e & Htext & ->)];
    unfold lift in Htext; injection Htext as Htext <-; [|exact Hstay].
  apply bind_inv in H as [(voice & st2 & Hvoice & H)|(e & Hvoice & ->)];
    unfold lift in Hvoice; injection Hvoice as Hvoice <-; [|exact Hstay].
  destruct (negb (truthy text)); [injection H as <- <-; exact Hstay|].
  apply bind_inv in H as [(len & st2 & Hlen & H)|(e & Hlen & ->)];
    unfold lift in Hlen; injection Hlen as Hlen <-; [|exact Hstay].
  destruct (len >? MAX_TEXT_LENGTH); [injection H as <- <-; exact Hstay|].
  destruct voice as [| | | |v| |];
    try (injection H as <- <-; exact Hstay).
  destruct (VOICE_PATTERN_match v) eqn:Hmatch; cbn [negb] in H;
    [|injection H as <- <-; exact Hstay].
  apply bind_inv in H as [(sl & st2 & Hsl & H)|(e & Hsl & ->)];
    unfold lift in Hsl; injection Hsl as Hsl <-; [|exact Hstay].
  apply first_char_of_match in Hmatch as (ch & rest & -> & Hc).
  unfold bind at 1 in H.
  destruct (generate_mp3 W text (String ch rest) st1) as [rg st2] eqn:Hrun.
  assert (st2 = st') as -> by (destruct rg; injection H; auto).
  destruct (generate_mp3_cases _ _ _ _ _ _ _ Hc Hrun) as (d & Hd & Hrd & _).
  exists d. split; assumption.
Qed.

(** X4: without a [Content-Length] header the handler reads zero bytes:
    the answer is that of the same request with an empty body, whatever was
    sent, and the one read of the request is [read(0)]. *)
Theorem no_content_length_reads_nothing W req st :
  path req = "/tts" ->
  content_length req = None ->
  do_POST W req st = do_POST W (Request POST "/tts" None "") st
  /\ forall resp st' d,
       do_POST W req st = (resp, st') -> extends st st' d ->
       reads d = [0] /\ last d = Some (EvRead 0 "").
Proof.
  intros Hpath Hcl.
  assert (E : do_POST W req st = do_POST W (Request POST "/tts" None "") st).
  { unfold do_POST, tts, declared_length. rewrite Hpath, Hcl.
    cbn [path content_length].
    change (0 >? MAX_BODY_SIZE) with false. cbn iota.
    unfold bind at 1 3. unfold rfile_read.
    change (0 <? -1) with false. cbn iota zeta.
    rewrite !read_bytes_0. reflexivity. }
  split; [exact E|].
  intros resp st' d Hrun Hd.
  unfold do_POST in Hrun. rewrite Hpath in Hrun. cbn in Hrun.
  destruct (tts W req st) as [r st1] eqn:Htts.
  assert (st1 = st') as -> by (destruct r; injection Hrun; auto).
  apply (tts_after_read W req st r st' 0) in Htts
    as (d' & Hd' & Hrd'); try reflexivity.
  2:{ unfold declared_length. rewrite Hcl. reflexivity. }
  rewrite read_bytes_0 in Hd'.
  assert (d = d' ++ [EvRead 0 ""]) as ->.
  { eapply extends_unique; [exact Hd|].
    unfold extends in *. rewrite Hd'. cbn. rewrite <- app_assoc. reflexivity. }
  split; [rewrite reads_app, Hrd'; reflexivity | apply last_snoc].
Qed.

(** X5: when the declared length is between -1 and 1,000,000, the body is
    read exactly once, with exactly that length: the size check has no lower
    bound, and a declared -1 asks for everything up to the end of the
    stream. *)
Theorem body_read_once W req st resp st' d n :
  path req = "/tts" ->
  declared_length W req = Some n ->
  -1 <= n <= 1000000 ->
  do_POST W req st = (resp, st') ->
  extends st st' d ->
  reads d = [n] /\ last d = Some (EvRead n (read_bytes req n)).
Proof.
  intros Hpath Hn Hrange Hrun Hd.
  unfold do_POST in Hrun. rewrite Hpath in Hrun. cbn in Hrun.
  destruct (tts W req st) as [r st1] eqn:Htts.
  assert (st1 = st') as -> by (destruct r; injection Hrun; auto).
  apply (tts_after_read W req st r st' n) in Htts as (d' & Hd' & Hrd');
    [|exact Hn|unfold MAX_BODY_SIZE; lia|lia].
  assert (d = d' ++ [EvRead n (read_bytes req n)]) as ->.
  { eapply extends_unique; [exact Hd|].
    unfold extends in *. rewrite Hd'. cbn. rewrite <- app_assoc. reflexivity. }
  split; [rewrite reads_app, Hrd'; reflexivity | apply last_snoc].
Qed.

(** X6: a body that [json.loads] rejects with [JSONDecodeError] is
    answered 400; any other exception of the parser reaches the outermost
    handler and is answered 500 with its message. *)
Theorem unparsable_body W req st n e :
  path req = "/tts" ->
  declared_length W req = Some n ->
  -1 <= n <= 1000000 ->
  w_json_loads W (read_bytes req n) = Raise e ->
  do_POST W req st
  = (if String.eqb (exn_type e) "JSONDecodeError"
     then JsonResponse 400 (error_body "Invalid JSON")
     else JsonResponse 500 (error_body (exn_msg e)),
     log (EvRead n (read_bytes req n)) st).
Proof.
  intros Hpath Hn Hrange Hjson.
  unfold do_POST, tts, rfile_read. rewrite Hpath, Hn. cbn.
  assert ((n >? MAX_BODY_SIZE) = false) as ->
    by (unfold MAX_BODY_SIZE; lia).
  unfold bind at 1. assert ((n <? -1) = false) as -> by lia.
  rewrite Hjson. destruct (String.eqb (exn_type e) "JSONDecodeError");
    reflexivity.
Qed.

(** X7: a JSON object whose ["text"] is missing or falsy (the empty
    string, [null], 0, [false], an empty list or object) is answered 400
    [No text provided], before the voice is looked at. *)
Theorem empty_text_gets_400 W req st n fields text :
  path req = "/tts" ->
  declared_length W req = Some n ->
  -1 <= n <= 1000000 ->
  w_json_loads W (read_bytes req n) = Ok (PDict fields) ->
  py_get (PDict fields) "text" (PStr "") = Ok text ->
  truthy text = false ->
  do_POST W req st
  = (JsonResponse 400 (error_body "No text provided"),
     log (EvRead n (read_bytes req n)) st).
Proof.
  intros Hpath Hn Hrange Hjson Htext Htruthy.
  unfold do_POST, tts, rfile_read. rewrite Hpath, Hn. cbn.
  assert ((n >? MAX_BODY_SIZE) = false) as ->
    by (unfold MAX_BODY_SIZE; lia).
  unfold bind at 1. assert ((n <? -1) = false) as -> by lia.
  rewrite Hjson. unfold bind, lift. rewrite Htext.
  cbn [py_get]. rewrite Htruthy. reflexivity.
Qed.

(** X8: a JSON object whose ["text"] is longer than 10,000 is answered 400
    [Text too long], whatever the voice. *)
Theorem long_text_gets_400 W req st n fields text len :
  path req = "/tts" ->
  declared_length W req = Some n ->
  -1 <= n <= 1000000 ->
  w_json_loads W (read_bytes req n) = Ok (PDict fields) ->
  py_get (PDict fields) "text" (PStr "") = Ok text ->
  truthy text = true ->
  py_len text = Ok len ->
  len > 10000 ->
  do_POST W req st
  = (JsonResponse 400 (error_body "Text too long (max 10000 chars)"),
     log (EvRead n (read_bytes req n)) st).
Proof.
  intros Hpath Hn Hrange Hjson Htext Htruthy Hlen Hlong.
  unfold do_POST, tts, rfile_read. rewrite Hpath, Hn. cbn.
  assert ((n >? MAX_BODY_SIZE) = false) as ->
    by (unfold MAX_BODY_SIZE; lia).
  unfold bind at 1. assert ((n <? -1) = false) as -> by lia.
  rewrite Hjson. unfold bind, lift. rewrite Htext.
  cbn [py_get]. rewrite Htruthy, Hlen. cbn [negb].
  assert ((len >? MAX_TEXT_LENGTH) = true) as ->
    by (unfold MAX_TEXT_LENGTH; lia).
  reflexivity.
Qed.

(** X9: a body that parses to anything but an object (a list, a string, a
    number, [null]) has no [get]: the request is answered 500. *)
Theorem non_object_body_gets_500 W req st n body :
  path req = "/tts" ->
  declared_length W req = Some n ->
  -1 <= n <= 1000000 ->
  w_json_loads W (read_bytes req n) = Ok body ->
  (forall fields, body ≠ PDict fields) ->
  do_POST W req st
  = (JsonResponse 500
       (error_body ("'" ++ type_name body ++ "' object has no attribute 'get'")%string),
     log (EvRead n (read_bytes req n)) st).
Proof.
  intros Hpath Hn Hrange Hjson Hshape.
  unfold do_POST, tts, rfile_read. rewrite Hpath, Hn. cbn.
  assert ((n >? MAX_BODY_SIZE) = false) as ->
    by (unfold MAX_BODY_SIZE; lia).
  unfold bind at 1. assert ((n <? -1) = false) as -> by lia.
  rewrite Hjson. unfold bind, lift.
  destruct body; try reflexivity. exfalso. eapply Hshape. reflexivity.
Qed.

(** *** Routing *)

(** X10: [do_GET] answers every path other than [/health] and [/voices],
    and [do_POST] every path other than [/tts] and [/voices], with 404
    [Not found]; neither makes a call to the outside nor changes the
    state. *)
Theorem other_routes_touch_nothing W req st :
  path req ≠ "/voices" ->
  (path req ≠ "/health" ->
   do_GET W req st = (Ok (JsonResponse 404 (error_body "Not found")), st))
  /\ (path req ≠ "/tts" ->
      do_POST W req st = (JsonResponse 404 (error_body "Not found"), st)).
Proof.
  intros Hv. apply String.eqb_neq in Hv. unfold do_POST, do_GET.
  split; intros Hp; apply String.eqb_neq in Hp; rewrite Hp, Hv; reflexivity.
Qed.

(** *** What a request can do at most *)

Ltac use_run_facts :=
  repeat match goal with
         | H : _ \/ _ |- _ => destruct H
         | H : exists _, _ |- _ => destruct H
         | H : inferences ?d = _ |- _ => rewrite H in *; clear H
         | H : evictions ?d = _ |- _ => rewrite H in *; clear H
         | H : encoded ?d = _ |- _ => rewrite H in *; clear H
         | H : nan_recoveries ?s = _ |- _ => rewrite H in *; clear H
         end.

(** X11: the retry policy is fixed: a [POST /tts] request makes at most two
    inference calls, evicts at most one pipeline and encodes at most one
    buffer. *)
Theorem at_most_two_attempts W req st resp st' d :
  path req = "/tts" ->
  do_POST W req st = (resp, st') ->
  extends st st' d ->
  (inference_count d <= 2)%nat
  /\ (length (evictions d) <= 1)%nat
  /\ (length (encoded d) <= 1)%nat.
Proof.
  intros Hpath Hrun Hd.
  destruct (do_POST_tts_cases _ _ _ _ _ _ Hpath Hrun Hd)
    as [[Haway _]|(text & v & r & c & n & data & dg & rg & _ & _ & -> &
                   _ & _ & _ & Hcases & _)].
  { destruct (turned_away_quiet _ _ _ _ Haway Hd) as (Hi & Hev & _ & Hen & _).
    unfold inference_count. rewrite Hi, Hev, Hen. cbn. lia. }
  destruct (after_read dg n data) as (Ei & Eev & _ & Een).
  unfold inference_count. rewrite Ei, Eev, Een.
  destruct Hcases; use_run_facts; cbn; lia.
Qed.

(** X12: a request never lowers the recovery counter and raises it by at
    most 1; it raises it exactly when it made two inference calls, the first
    with a NaN in its output and the second without, and handed the second
    output to the encoder. *)
Theorem counter_counts_recoveries W req st resp st' d :
  path req = "/tts" ->
  do_POST W req st = (resp, st') ->
  extends st st' d ->
  (nan_recoveries st' = nan_recoveries st
   \/ nan_recoveries st' = nan_recoveries st + 1)
  /\ (nan_recoveries st' = nan_recoveries st + 1 <->
      exists p1 a1 p2 a2,
        inferences d = [(p1, Some a1); (p2, Some a2)]
        /\ has_nan a1 = true /\ has_nan a2 = false
        /\ encoded d = [a2]).
Proof.
  intros Hpath Hrun Hd.
  destruct (do_POST_tts_cases _ _ _ _ _ _ Hpath Hrun Hd)
    as [[Haway _]|(text & v & r & c & n & data & dg & rg & _ & _ & -> &
                   _ & _ & _ & Hcases & _)].
  { destruct (turned_away_quiet _ _ _ _ Haway Hd)
      as (Hi & _ & _ & _ & _ & Hn).
    rewrite Hi, Hn. split; [left; reflexivity|].
    split; [lia | intros (? & ? & ? & ? & ? & _); discriminate]. }
  destruct (after_read dg n data) as (Ei & _ & _ & Een).
  rewrite Ei, Een. change (nan_recoveries (log (EvRead n data) st))
    with (nan_recoveries st) in Hcases.
  destruct Hcases; use_run_facts; unfold log; cbn [nan_recoveries];
    (split; [first [left; reflexivity | right; reflexivity]|]);
    split; intros Hx;
    first [ lia
          | destruct Hx as (? & ? & ? & ? & ? & ? & ? & ?);
            simplify_eq; congruence
          | eauto 10 ].
Qed.

(** X13: audio that is served was checked: a 200 response to [POST /tts]
    comes from exactly one encoding, of the output of the last inference
    call, and that output has no NaN. *)
Theorem served_audio_has_no_nan W req st mp3 st' d :
  path req = "/tts" ->
  do_POST W req st = (AudioResponse mp3, st') ->
  extends st st' d ->
  exists p a,
    last (inferences d) = Some (p, Some a)
    /\ has_nan a = false
    /\ encoded d = [a].
Proof.
  intros Hpath Hrun Hd.
  destruct (do_POST_tts_cases _ _ _ _ _ _ Hpath Hrun Hd)
    as [[_ Hresp]|(text & v & r & c & n & data & dg & rg & _ & _ & -> &
                   _ & _ & _ & Hcases & Hresp)].
  { destruct Hresp as [(m & H)|[(m & H)|(m & H)]]; discriminate. }
  destruct (after_read dg n data) as (Ei & _ & _ & Een).
  rewrite Ei, Een.
  destruct Hcases; use_run_facts; subst; try discriminate; eauto.
Qed.

(** *** The cache, hit and miss *)

Lemma get_pipeline_hit W c st p :
  pipelines st !! c = Some p -> get_pipeline W c st = (Ok p, st).
Proof.
  intros Hc. unfold get_pipeline, bind, gets, ret, pipelines_getitem.
  rewrite Hc. cbn. rewrite Hc. reflexivity.
Qed.

(** X14: [get_pipeline] is idempotent: once it has returned a pipeline for
    a code, asking again returns the same pipeline and does nothing, neither
    a constructor call nor a warmup. *)
Theorem get_pipeline_twice W c st p st1 :
  get_pipeline W c st = (Ok p, st1) ->
  get_pipeline W c st1 = (Ok p, st1).
Proof.
  intros H. apply get_pipeline_spec in H as (d & _ & _ & _ & Hp & _).
  apply get_pipeline_hit. rewrite Hp. apply lookup_insert_eq.
Qed.

(** An attempt on a cached pipeline loads the voice and, if that worked,
    runs the inference, on that pipeline. *)
Lemma attempt_cached W c text v st p r st' :
  pipelines st !! c = Some p ->
  attempt W c text v st = (r, st') ->
  (exists e, r = Raise e /\ st' = log (EvLoadVoice p v (Raise e)) st)
  \/ (exists vd rr,
        st' = log (EvInference p text vd rr) (log (EvLoadVoice p v (Ok vd)) st)
        /\ output_of rr = match r with Ok a => Some a | Raise _ => None end).
Proof.
  intros Hc H. unfold attempt in H.
  unfold bind at 1 in H. rewrite (get_pipeline_hit W c st p Hc) in H.
  apply bind_inv in H as [(vd & st2 & Hlv & H)|(e & Hlv & ->)];
    apply load_voice_spec in Hlv; subst.
  - right. apply _run_inference_spec in H as (rr & -> & Hout). eauto.
  - left. eauto.
Qed.

(** An attempt on a code that is not cached: the constructor raises and
    nothing else happens, or exactly one pipeline is constructed and
    cached. *)
Lemma attempt_uncached W c text v st r st' :
  pipelines st !! c = None ->
  attempt W c text v st = (r, st') ->
  (exists e, r = Raise e /\ st' = log (EvConstruct c (Raise e)) st)
  \/ (exists d, extends st st' d
        /\ constructions d = [(c, Ok (next_pid st))]
        /\ pipelines st' = <[c := next_pid st]> (pipelines st)).
Proof.
  intros Hc H. unfold attempt in H.
  apply bind_inv in H as [(p & st1 & Hgp & H)|(e & Hgp & ->)];
    apply get_pipeline_cases in Hgp
      as [(q & Hq & _)|[(e' & _ & Hr & _ & Hst)
                       |(w & _ & Hr & _ & Hw & _ & Hst)]];
    try congruence; try discriminate.
  2:{ left. injection Hr as <-. eauto. }
  injection Hr as ->. right.
  assert (Hcw : constructions w = []).
  { apply collect_nil_Forall. eapply Forall_impl; [exact Hw|].
    intros [] He; simpl in He; solve [reflexivity | contradiction]. }
  set (d1 := w ++ [EvConstruct c (Ok (next_pid st))]).
  assert (Hd1 : extends st st1 d1).
  { subst st1. unfold extends, d1. cbn. rewrite <- app_assoc. reflexivity. }
  assert (Hc1 : constructions d1 = [(c, Ok (next_pid st))]).
  { unfold d1. rewrite constructions_app, Hcw. reflexivity. }
  assert (Hp1 : pipelines st1 = <[c := next_pid st]> (pipelines st))
    by (subst st1; reflexivity).
  apply bind_inv in H as [(vd & st2 & Hlv & H)|(e & Hlv & ->)];
    apply load_voice_spec in Hlv; rewrite Hlv in *; clear Hlv.
  - apply _run_inference_spec in H as (rr & -> & _).
    exists ([EvInference (next_pid st) text vd rr;
             EvLoadVoice (next_pid st) v (Ok vd)] ++ d1).
    repeat split.
    + unfold extends in *. cbn. rewrite Hd1. reflexivity.
    + rewrite constructions_app, Hc1. reflexivity.
    + exact Hp1.
  - exists ([EvLoadVoice (next_pid st) v (Raise e)] ++ d1).
    repeat split.
    + unfold extends in *. cbn. rewrite Hd1. reflexivity.
    + rewrite constructions_app, Hc1. reflexivity.
    + exact Hp1.
Qed.

(** What follows the eviction only adds to the history. *)
Lemma retry_extends W c text v st2 r st' :
  (let* a := attempt W c text v in
   if has_nan a then raise nan_after_reload
   else
     modify (fun st => State (pipelines st) (nan_recoveries st + 1)
                         (next_pid st) (trace st)) ;;;
     _audio_to_mp3 W a) st2 = (r, st') ->
  exists d2, extends st2 st' d2.
Proof.
  intros H.
  apply bind_inv in H as [(a2 & st3 & Ha2 & H)|(e & Ha2 & ->)];
    apply attempt_spec in Ha2 as (dB & HdB & _); [|eauto].
  destruct (has_nan a2); [injection H as <- <-; eauto|].
  apply bind_inv in H as [([] & st4 & Hmod & H)|(e & Hmod & _)];
    unfold modify in Hmod; [|discriminate].
  injection Hmod as <-. apply _audio_to_mp3_spec in H as (rr & ->).
  exists ([EvEncode a2 rr] ++ dB). unfold extends in *. cbn. rewrite HdB.
  reflexivity.
Qed.

(** X15: when the pipeline of the voice's code is cached and no recovery
    takes place, [generate_mp3] reuses it as it is: no constructor call and
    no warmup.  The first thing it does is to load the voice of the request
    on the cached pipeline, and all that follows is the inference call, on
    that pipeline and for the text of the request, and the encoding; the
    cache and the identities are as before. *)
Theorem cached_pipeline_is_reused W text v c p st r st' d :
  first_char v = Ok c ->
  pipelines st !! c = Some p ->
  generate_mp3 W text v st = (r, st') ->
  extends st st' d ->
  evictions d = [] ->
  constructions d = []
  /\ Forall (fun x => x.1 = p) (inferences d)
  /\ pipelines st' = pipelines st
  /\ next_pid st' = next_pid st
  /\ exists rv rest,
       d = rest ++ [EvLoadVoice p v rv]
       /\ Forall (fun e => match e with
                           | EvInference q t _ _ => q = p /\ t = text
                           | EvEncode _ _ => True
                           | _ => False
                           end) rest.
Proof.
  intros Hc Hp H Hd Hev. rewrite generate_mp3_attempts in H.
  unfold lift at 1 in H. unfold bind at 1 in H. rewrite Hc in H.
  apply bind_inv in H as [(a1 & st1 & Ha1 & H)|(e & Ha1 & ->)];
    apply (attempt_cached W c text v st p) in Ha1
      as [(e' & Hr & Hst)|(vd & rr & Hst & Hout)]; try exact Hp;
    try discriminate.
  - subst st1. destruct (has_nan a1) eqn:Hnan; cbn [negb] in H.
    + (* a NaN: the eviction would be in [d] *)
      exfalso.
      apply bind_inv in H as [(old & st2 & Hpop & H)|(e & Hpop & _)];
        unfold pipelines_pop in Hpop; [|discriminate].
      injection Hpop as <- <-.
      apply retry_extends in H as (d2 & Hd2).
      assert (d = d2 ++ [EvEvict c (pipelines st !! c);
                         EvInference p text vd rr;
                         EvLoadVoice p v (Ok vd)]) as ->.
      { eapply extends_unique; [exact Hd|].
        unfold extends in *. rewrite Hd2. cbn. rewrite <- app_assoc.
        reflexivity. }
      rewrite evictions_app in Hev. discriminate.
    + apply _audio_to_mp3_spec in H as (re & ->).
      assert (d = [EvEncode a1 re; EvInference p text vd rr;
                   EvLoadVoice p v (Ok vd)]) as ->
        by (eapply extends_unique; [exact Hd | reflexivity]).
      repeat split; repeat constructor.
      exists (Ok vd), [EvEncode a1 re; EvInference p text vd rr].
      split; [reflexivity|]. repeat constructor.
  - (* the voice could not be loaded *)
    subst st'.
    assert (d = [EvLoadVoice p v (Raise e')]) as ->
      by (eapply extends_unique; [exact Hd | reflexivity]).
    repeat split; try constructor.
    exists (Raise e'), []. split; [reflexivity | constructor].
  - (* the inference raised *)
    subst st'.
    assert (d = [EvInference p text vd rr; EvLoadVoice p v (Ok vd)]) as ->
      by (eapply extends_unique; [exact Hd | reflexivity]).
    repeat split; repeat constructor.
    exists (Ok vd), [EvInference p text vd rr].
    split; [reflexivity|]. repeat constructor.
Qed.

(** X16: a reload that fails leaves the code without a pipeline: when a
    recovery has evicted and the constructor then raises, [generate_mp3]
    raises that exception, the counter is unchanged and the cache has no
    entry for the code, so that the next request constructs again. *)
Theorem failed_reload_leaves_code_uncached W text v c st r st' d e :
  first_char v = Ok c ->
  generate_mp3 W text v st = (r, st') ->
  extends st st' d ->
  evictions d ≠ [] ->
  last (constructions d) = Some (c, Raise e) ->
  r = Raise e
  /\ pipelines st' !! c = None
  /\ nan_recoveries st' = nan_recoveries st.
Proof.
  intros Hc H Hd Hev Hlast. rewrite generate_mp3_attempts in H.
  unfold lift at 1 in H. unfold bind at 1 in H. rewrite Hc in H.
  apply bind_inv in H as [(a1 & st1 & Ha1 & H)|(e1 & Ha1 & ->)];
    apply attempt_spec in Ha1
      as (dA & HdA & HnA & HevA & _ & _ & _ & _ & HrA).
  2:{ exfalso. apply Hev.
      rewrite (extends_unique _ _ _ _ Hd HdA). exact HevA. }
  destruct HrA as (p1 & _ & HpA & _).
  destruct (has_nan a1) eqn:Hnan; cbn [negb] in H.
  2:{ exfalso. apply Hev. apply _audio_to_mp3_spec in H as (re & ->).
      assert (d = [EvEncode a1 re] ++ dA) as ->.
      { eapply extends_unique; [exact Hd|].
        unfold extends in *. cbn. rewrite HdA. reflexivity. }
      rewrite evictions_app, HevA. reflexivity. }
  apply bind_inv in H as [(old & st2 & Hpop & H)|(e2 & Hpop & _)];
    unfold pipelines_pop in Hpop; [|discriminate].
  injection Hpop as <- <-.
  set (ev := EvEvict c (pipelines st1 !! c)) in *.
  set (st2 := State _ _ _ _) in H.
  assert (Hd2 : extends st st2 ([ev] ++ dA)).
  { unfold extends in *. cbn. rewrite HdA. reflexivity. }
  assert (Hc2 : pipelines st2 !! c = None) by apply lookup_delete_eq.
  apply bind_inv in H as [(a2 & st3 & Ha2 & H)|(e2 & Ha2 & ->)];
    apply (attempt_uncached W c text v st2) in Ha2
      as [(e3 & Hr & Hst)|(dB & HdB & HcB & _)]; try exact Hc2;
    try discriminate.
  - (* constructed, then the retry succeeded or found a NaN *)
    exfalso.
    assert (Hx : exists d3, extends st3 st' d3 /\ constructions d3 = []).
    { destruct (has_nan a2); [injection H as <- <-; exists []; split; reflexivity|].
      apply bind_inv in H as [([] & st4 & Hmod & H)|(e2 & Hmod & _)];
        unfold modify in Hmod; [|discriminate].
      injection Hmod as <-. apply _audio_to_mp3_spec in H as (re & ->).
      exists [EvEncode a2 re]. split; reflexivity. }
    destruct Hx as (d3 & Hd3 & Hc3).
    pose proof (extends_trans _ _ _ _ _ (extends_trans _ _ _ _ _ Hd2 HdB) Hd3)
      as Hall.
    rewrite (extends_unique _ _ _ _ Hd Hall) in Hlast.
    rewrite !constructions_app, Hc3, HcB in Hlast.
    rewrite app_nil_r, last_snoc in Hlast. discriminate.
  - (* the constructor raised *)
    injection Hr as <-. subst st'.
    assert (d = [EvConstruct c (Raise e2)] ++ [ev] ++ dA) as ->.
    { eapply extends_unique; [exact Hd|].
      unfold extends in *. cbn. rewrite HdA. reflexivity. }
    rewrite constructions_app in Hlast.
    change (constructions [EvConstruct c (Raise e2)])
      with [(c, Raise e2 : result pid)] in Hlast.
    rewrite last_snoc in Hlast. injection Hlast as ->.
    repeat split; [exact Hc2 | exact HnA].
  - (* constructed, then the voice or the inference raised *)
    exfalso.
    pose proof (extends_trans _ _ _ _ _ Hd2 HdB) as Hall.
    rewrite (extends_unique _ _ _ _ Hd Hall) in Hlast.
    rewrite !constructions_app, HcB in Hlast.
    rewrite last_snoc in Hlast. discriminate.
Qed.

(** *** Voice discovery *)

Lemma list_voices_elem names v :
  v ∈ list_voices names <->
  exists f, f ∈ names /\ PyStr.endswith ".pt" f = true
            /\ PyStr.startswith "." f = false
            /\ v = PyStr.replace ".pt" "" f.
Proof.
  unfold list_voices, PyStr.sorted. rewrite merge_sort_Permutation.
  rewrite list_elem_of_In, in_map_iff. split.
  - intros (f & <- & Hf). apply filter_In in Hf as [Hin Hf].
    apply andb_true_iff in Hf as [He Hs]. apply negb_true_iff in Hs.
    exists f. rewrite list_elem_of_In. auto.
  - intros (f & Hin & He & Hs & ->). exists f. split; [reflexivity|].
    apply filter_In. rewrite list_elem_of_In in Hin. split; [exact Hin|].
    rewrite He, Hs. reflexivity.
Qed.

(** X17: when [GET /voices] answers, it answers 200 with a list that is
    sorted, has no entry starting with a dot, and holds exactly the names of
    the directory that end in [.pt] and do not start with a dot, each with
    its [.pt] occurrences removed; the directory is listed once. *)
Theorem get_voices_listing W req st resp st' :
  path req = "/voices" ->
  do_GET W req st = (Ok resp, st') ->
  exists names,
    w_listdir W (trace st) = Ok names
    /\ st' = log (EvListdir (Ok names)) st
    /\ resp = JsonResponse 200 (voices_body (list_voices names))
    /\ Sorted PyStr.le (list_voices names)
    /\ (forall v, v ∈ list_voices names -> PyStr.startswith "." v = false)
    /\ (forall v, v ∈ list_voices names <->
          exists f, f ∈ names /\ PyStr.endswith ".pt" f = true
                    /\ PyStr.startswith "." f = false
                    /\ v = PyStr.replace ".pt" "" f).
Proof.
  intros Hpath H. unfold do_GET, voices in H. rewrite Hpath in H. cbn in H.
  destruct (w_listdir W (trace st)) as [names|e]; [|discriminate].
  injection H as <- <-. exists names.
  split; [reflexivity|]. split; [reflexivity|]. split; [reflexivity|].
  split; [apply list_voices_sorted|].
  split; [apply list_voices_not_hidden|].
  intros v. apply list_voices_elem.
Qed.

Lemma replace_plain_stem stem :
  no_dot stem = true ->
  PyStr.replace_from ".pt" "" 0 (stem ++ ".pt")%string = stem.
Proof.
  induction stem as [|c rest IH]; [reflexivity|].
  cbn [no_dot]. intros H. apply andb_true_iff in H as [Hc Hrest].
  apply negb_true_iff, Ascii.eqb_neq in Hc.
  change (String c rest ++ ".pt")%string
    with (String c (rest ++ ".pt"))%string.
  cbn [PyStr.replace_from String.prefix].
  destruct (Ascii.ascii_dec "." c) as [<-|_]; [contradiction|].
  rewrite (IH Hrest). reflexivity.
Qed.

Lemma substring_all (s : string) : substring 0 (String.length s) s = s.
Proof. induction s as [|c s IH]; simpl; [reflexivity | congruence]. Qed.

Lemma substring_skip (s suf : string) (n : nat) :
  substring (String.length s) n (s ++ suf)%string = substring 0 n suf.
Proof. induction s as [|c s IH]; simpl; [reflexivity | exact IH]. Qed.

Lemma endswith_app suf s : PyStr.endswith suf (s ++ suf)%string = true.
Proof.
  unfold PyStr.endswith. rewrite string_length_app.
  apply andb_true_iff. split; [apply Nat.leb_le; lia|].
  apply String.eqb_eq.
  replace (String.length s + String.length suf - String.length suf)%nat
    with (String.length s) by lia.
  rewrite substring_skip. apply substring_all.
Qed.

(** X18: the usual case of the voice list: a file [stem.pt] whose stem is
    not empty and has no dot is listed under exactly its stem. *)
Theorem plain_voice_file_is_listed names stem :
  (stem ++ ".pt")%string ∈ names ->
  stem ≠ "" ->
  no_dot stem = true ->
  PyStr.replace ".pt" "" (stem ++ ".pt") = stem
  /\ stem ∈ list_voices names.
Proof.
  intros Hin Hne Hdot.
  assert (E : PyStr.replace ".pt" "" (stem ++ ".pt") = stem)
    by (apply replace_plain_stem, Hdot).
  split; [exact E|].
  apply list_voices_elem. exists (stem ++ ".pt")%string.
  repeat split; [exact Hin | apply endswith_app | | symmetry; exact E].
  destruct stem as [|c rest]; [contradiction|].
  cbn [no_dot] in Hdot. apply andb_true_iff in Hdot as [Hc _].
  apply negb_true_iff, Ascii.eqb_neq in Hc.
  unfold PyStr.startswith.
  change (String c rest ++ ".pt")%string
    with (String c (rest ++ ".pt"))%string.
  cbn [String.prefix].
  destruct (Ascii.ascii_dec "." c) as [<-|_]; [contradiction | reflexivity].
Qed.

(** X19: [GET /voices] and [POST /voices] answer alike when the directory
    can be listed; when it cannot, [POST] answers 500 with the message and
    [GET], which has no [try], lets the exception out without a response. *)
Theorem voices_get_and_post W req st :
  path req = "/voices" ->
  let r := w_listdir W (trace st) in
  let st1 := log (EvListdir r) st in
  match r with
  | Ok names =>
      do_GET W req st
      = (Ok (JsonResponse 200 (voices_body (list_voices names))), st1)
      /\ do_POST W req st
         = (JsonResponse 200 (voices_body (list_voices names)), st1)
  | Raise e =>
      do_GET W req st = (Raise e, st1)
      /\ do_POST W req st = (JsonResponse 500 (error_body (exn_msg e)), st1)
  end.
Proof.
  intros Hpath r st1. unfold do_GET, do_POST, voices.
  rewrite Hpath. cbn. fold r. fold st1.
  destruct r; split; reflexivity.
Qed.

(** *** Startup *)

(** X20: when the pipeline of ['a'] cannot be constructed at startup, the
    process ends there: whatever requests are waiting, none is handled, and
    the history is that one failed constructor call. *)
Theorem startup_failure_serves_nothing W reqs e :
  w_KPipeline W [] "a" = Raise e ->
  main W reqs = log (EvConstruct "a" (Raise e)) initial.
Proof.
  intros Hk. unfold main.
  destruct (get_pipeline W "a" initial) as [r st] eqn:H.
  apply get_pipeline_cases in H
    as [(p & Hc & _)|[(e' & _ & -> & Hk' & ->)|(w & _ & _ & Hk' & _)]].
  - cbn in Hc. rewrite lookup_empty in Hc. discriminate.
  - cbn in Hk'. rewrite Hk in Hk'. injection Hk' as <-. reflexivity.
  - cbn in Hk'. rewrite Hk in Hk'. discriminate.
Qed.

(** *** No call into an evicted pipeline *)

(** The cache invariant, and every call into a pipeline made while it is
    live. *)
Definition Inv_live (st : state) : Prop := Inv st /\ uses_live (trace st).

Lemma used_is_plain e p : pipeline_used e = Some p -> plain e.
Proof. destruct e; simpl; solve [discriminate | intros; exact Logic.I]. Qed.

Lemma live_plain_app w h : Forall plain w -> live (w ++ h) = live h.
Proof.
  induction 1 as [|e w He _ IH]; [reflexivity|].
  cbn [app]. rewrite live_plain by exact He. exact IH.
Qed.

Lemma cached_is_live st c p :
  Inv st -> pipelines st !! c = Some p -> p ∈ (live (trace st)).*2.
Proof.
  intros [_ Hl] Hc. rewrite Hl. apply list_elem_of_fmap.
  exists (c, p). split; [reflexivity|]. apply elem_of_map_to_list, Hc.
Qed.

Lemma Inv_live_inert e st :
  pipeline_used e = None -> plain e -> Inv_live st -> Inv_live (log e st).
Proof.
  intros Hu He [HI Hl]. split; [apply Inv_log; assumption|].
  unfold log. cbn [trace uses_live]. rewrite Hu. split; [exact Logic.I | exact Hl].
Qed.

Lemma Inv_live_call e st c p :
  pipeline_used e = Some p -> pipelines st !! c = Some p ->
  Inv_live st -> Inv_live (log e st).
Proof.
  intros Hu Hc [HI Hl]. split; [apply Inv_log; eauto using used_is_plain|].
  unfold log. cbn [trace uses_live]. rewrite Hu.
  split; [eapply cached_is_live; eassumption | exact Hl].
Qed.

(** The warmup of a new pipeline calls into that pipeline only. *)
Lemma get_pipeline_warms_new W c st r st' :
  pipelines st !! c = None ->
  get_pipeline W c st = (r, st') ->
  (exists e, st' = log (EvConstruct c (Raise e)) st)
  \/ (exists w, Forall (fun e => pipeline_used e = Some (next_pid st)) w
        /\ trace st' = w ++ EvConstruct c (Ok (next_pid st)) :: trace st).
Proof.
  intros Hc.
  unfold get_pipeline, bind, gets, ret, try_except, pipelines_setitem, modify,
    pipelines_getitem, KPipeline, load_voice, warmup_pass, log.
  rewrite Hc. cbn.
  destruct (w_KPipeline W (trace st) c) as [[]|e]; cbn.
  - destruct (w_load_voice W _ _ _) as [v|e]; cbn.
    + destruct (w_pipe W _ _ _ _) as [chunks|e]; cbn;
        rewrite lookup_insert_eq; intros [= <- <-]; right;
        eexists [_; _]; (split; [|reflexivity]); repeat constructor.
    + rewrite lookup_insert_eq. intros [= <- <-]. right.
      eexists [_]; (split; [|reflexivity]); repeat constructor.
  - intros [= <- <-]. left. eauto.
Qed.

Lemma uses_live_warm w c p h :
  Forall (fun e => pipeline_used e = Some p) w ->
  uses_live h ->
  uses_live (w ++ EvConstruct c (Ok p) :: h).
Proof.
  intros Hw Hh. induction Hw as [|e w He Hw IH].
  - cbn. auto.
  - cbn [app uses_live]. rewrite He. split; [|exact IH].
    rewrite live_plain_app
      by (eapply Forall_impl; [exact Hw | intros x; apply used_is_plain]).
    cbn. left.
Qed.

Lemma Inv_live_get_pipeline W c : keeps Inv_live (get_pipeline W c).
Proof.
  intros st r st' [HI Hl] H.
  split; [eapply Inv_get_pipeline; eassumption|].
  destruct (pipelines st !! c) as [p|] eqn:Hc.
  - rewrite (get_pipeline_hit W c st p Hc) in H. injection H as <- <-. exact Hl.
  - apply (get_pipeline_warms_new W c st r st' Hc) in H
      as [(e & ->)|(w & Hw & ->)].
    + cbn. auto.
    + apply uses_live_warm; assumption.
Qed.

Lemma Inv_live_pop c : keeps Inv_live (pipelines_pop c).
Proof.
  intros st r st' [HI Hl] H.
  split; [eapply Inv_pop; eassumption|].
  unfold pipelines_pop in H. injection H as <- <-. cbn. auto.
Qed.

Lemma Inv_live_attempt W c text v : keeps Inv_live (attempt W c text v).
Proof.
  intros st r st' HJ H. unfold attempt in H.
  apply bind_inv in H as [(p & st1 & Hgp & H)|(e & Hgp & ->)];
    [|eapply Inv_live_get_pipeline; eassumption].
  pose proof (Inv_live_get_pipeline W c _ _ _ HJ Hgp) as HJ1.
  assert (Hp : pipelines st1 !! c = Some p).
  { apply get_pipeline_spec in Hgp as (d & _ & _ & _ & -> & _).
    apply lookup_insert_eq. }
  apply bind_inv in H as [(vd & st2 & Hlv & H)|(e & Hlv & ->)];
    apply load_voice_spec in Hlv; subst;
    [|eapply Inv_live_call; [reflexivity | exact Hp | exact HJ1]].
  apply _run_inference_spec in H as (rr & -> & _).
  eapply (Inv_live_call _ _ c p); [reflexivity | exact Hp |].
  eapply Inv_live_call; [reflexivity | exact Hp | exact HJ1].
Qed.

Lemma Inv_live_generate_mp3 W text v : keeps Inv_live (generate_mp3 W text v).
Proof.
  intros st r st' HJ H. rewrite generate_mp3_attempts in H.
  revert st r st' HJ H. change (keeps Inv_live
    (let* c := lift (first_char v) in
     let* a := attempt W c text v in
     if negb (has_nan a) then _audio_to_mp3 W a
     else
       pipelines_pop c ;;;
       let* a := attempt W c text v in
       if has_nan a then raise nan_after_reload
       else
         modify (fun st => State (pipelines st) (nan_recoveries st + 1)
                             (next_pid st) (trace st)) ;;;
         _audio_to_mp3 W a)).
  assert (Henc : forall a, keeps Inv_live (_audio_to_mp3 W a)).
  { intros a st r st' HJ H. apply _audio_to_mp3_spec in H as (rr & ->).
    apply Inv_live_inert; [reflexivity | exact Logic.I | exact HJ]. }
  repeat first
    [ apply keeps_lift | apply keeps_raise
    | apply Inv_live_attempt | apply Henc | apply Inv_live_pop
    | apply keeps_if
    | apply keeps_bind; [|intros ?] ].
  intros st r st' HJ [= <- <-]. exact HJ.
Qed.

Lemma Inv_live_tts W req : keeps Inv_live (tts W req).
Proof.
  unfold tts.
  destruct (declared_length W req) as [n|]; [|apply keeps_ret].
  apply keeps_if; [apply keeps_ret|].
  apply keeps_bind; [|intros data].
  { intros st r st' HJ H. unfold rfile_read in H.
    destruct (n <? -1); injection H as <- <-; [exact HJ|].
    apply Inv_live_inert; [reflexivity | exact Logic.I | exact HJ]. }
  destruct (w_json_loads W data) as [body|e];
    [|apply keeps_if; [apply keeps_ret | apply keeps_raise]].
  apply keeps_bind; [apply keeps_lift|intros text].
  apply keeps_bind; [apply keeps_lift|intros voice].
  apply keeps_if; [apply keeps_ret|].
  apply keeps_bind; [apply keeps_lift|intros len].
  apply keeps_if; [apply keeps_ret|].
  destruct voice; try apply keeps_raise.
  apply keeps_if; [apply keeps_ret|].
  apply keeps_bind; [apply keeps_lift|intros _].
  apply keeps_bind; [apply Inv_live_generate_mp3|intros mp3].
  apply keeps_ret.
Qed.

Lemma Inv_live_handle W req st : Inv_live st -> Inv_live (handle W req st).2.
Proof.
  intros HJ.
  assert (Hv : keeps Inv_live (voices W)).
  { intros s r s' HJs H. unfold voices in H. injection H as <- <-.
    apply Inv_live_inert; [reflexivity | exact Logic.I | exact HJs]. }
  unfold handle, do_POST, do_GET.
  destruct (method req).
  - destruct (String.eqb (path req) "/health"); [exact HJ|].
    destruct (String.eqb (path req) "/voices"); [|exact HJ].
    destruct (voices W st) as [[vs|e] st1] eqn:E; apply Hv in E; auto.
  - destruct (String.eqb (path req) "/tts").
    + destruct (tts W req st) as [[resp|e] st1] eqn:Ht;
        apply Inv_live_tts in Ht; auto.
    + destruct (String.eqb (path req) "/voices"); [|exact HJ].
      destruct (voices W st) as [[vs|e] st1] eqn:E; apply Hv in E; auto.
Qed.

Lemma Inv_live_main W reqs : Inv_live (main W reqs).
Proof.
  assert (H0 : Inv_live initial) by (split; [apply Inv_initial | exact Logic.I]).
  unfold main.
  destruct (get_pipeline W "a" initial) as [[p|e] st] eqn:Hstart;
    apply Inv_live_get_pipeline in Hstart; auto.
  clear H0.
  revert st Hstart. induction reqs as [|req rest IH]; intros st HJ; [exact HJ|].
  cbn. apply IH, Inv_live_handle, HJ.
Qed.

Lemma uses_live_suffix h s : uses_live h -> s `suffix_of` h -> uses_live s.
Proof.
  intros Hu [k ->]. induction k as [|e k IH]; [exact Hu|].
  apply IH. apply Hu.
Qed.

(** X21: the server never calls into a pipeline that is not live: at every
    point of its execution, a voice is loaded, a warmup is run or an
    inference is run only on a pipeline that was constructed and has not
    been evicted since.  In particular the pipeline evicted by a recovery is
    never used again. *)
Theorem no_call_into_an_evicted_pipeline W reqs e h p :
  (e :: h) `suffix_of` trace (main W reqs) ->
  pipeline_used e = Some p ->
  p ∈ (live h).*2.
Proof.
  intros Hs Hu.
  destruct (Inv_live_main W reqs) as [_ Hl].
  apply (uses_live_suffix _ _ Hl) in Hs.
  cbn [uses_live] in Hs. rewrite Hu in Hs. apply Hs.
Qed.

(** *** The further properties at concrete requests *)

Lemma run_inference_joins_chunks_witness :
  let W := scripted hello [clean] in
  exists chunks,
    w_pipe W (trace initial) 0%nat (PStr "hello") 0%nat = Ok chunks
    /\ chunks ≠ []
    /\ clean = List.concat chunks
    /\ length clean = list_sum (List.map (@length sample) chunks)
    /\ has_nan clean = existsb has_nan chunks
    /\ log (EvInference 0%nat (PStr "hello") 0%nat (Ok [clean])) initial
       = log (EvInference 0%nat (PStr "hello") 0%nat (Ok chunks)) initial.
Proof.
  intros W.
  apply (run_inference_joins_chunks W 0%nat (PStr "hello") 0%nat initial).
  reflexivity.
Defined.

(** The encoder fails with a diagnostic that decodes, and with one that
    does not (the byte 255 is in no UTF-8 sequence). *)
Lemma audio_to_mp3_outcome_witness :
  let pr := Proc 1 "" "pipe:0: Invalid data found when processing input" in
  let msg := "ffmpeg error: pipe:0: Invalid data found when processing input" in
  let bad := Proc 1 "" (String (ascii_of_nat 255) "") in
  let e' := Exn "UnicodeDecodeError"
              "'utf-8' codec can't decode byte: invalid start byte" in
  (returncode pr ≠ 0
   /\ Exn "RuntimeError" msg
      = Exn "RuntimeError" ("ffmpeg error: " ++ PyStr.slice_to 200 (stderr pr))%string
   /\ (String.length msg <= 214)%nat)
  /\ (_audio_to_mp3 (with_ffmpeg (scripted hello []) bad) clean initial).1
     = Raise e'
  /\ (returncode bad ≠ 0 /\ e' = e').
Proof.
  intros pr msg bad e'. split; [|split; [reflexivity|]].
  - refine (proj2 (audio_to_mp3_outcome (with_ffmpeg (scripted hello []) pr)
                     clean initial (Raise (Exn "RuntimeError" msg))
                     (log (EvEncode clean (Ok pr)) initial) pr _ _));
      reflexivity.
  - refine (proj2 (audio_to_mp3_outcome (with_ffmpeg (scripted hello []) bad)
                     clean initial (Raise e')
                     (log (EvEncode clean (Ok bad)) initial) bad _ _));
      reflexivity.
Defined.

Lemma bad_content_length_gets_400_witness :
  do_POST (scripted hello []) post_bad_length initial
  = (JsonResponse 400 (error_body "Invalid Content-Length"), initial).
Proof.
  apply (bad_content_length_gets_400 (scripted hello []) post_bad_length
           initial "abc"); reflexivity.
Defined.

Lemma no_content_length_reads_nothing_witness :
  let W := scripted hello [] in
  do_POST W post_without_length initial
  = do_POST W (Request POST "/tts" None "") initial
  /\ forall resp st' d,
       do_POST W post_without_length initial = (resp, st') ->
       extends initial st' d ->
       reads d = [0] /\ last d = Some (EvRead 0 "").
Proof.
  intros W.
  apply (no_content_length_reads_nothing W post_without_length initial);
    reflexivity.
Defined.

Lemma body_read_once_witness :
  let W := scripted hello [clean] in
  let st' := (do_POST W post_tts initial).2 in
  reads (trace st') = [20]
  /\ last (trace st') = Some (EvRead 20 (read_bytes post_tts 20)).
Proof.
  intros W st'.
  apply (body_read_once W post_tts initial (do_POST W post_tts initial).1 st'
           (trace st') 20);
    solve [vm_compute; reflexivity | lia].
Defined.

Lemma unparsable_body_witness :
  let e := Exn "JSONDecodeError" "Expecting value: line 1 column 1 (char 0)" in
  let W := with_json (scripted hello []) (Raise e) in
  do_POST W post_tts initial
  = (if String.eqb (exn_type e) "JSONDecodeError"
     then JsonResponse 400 (error_body "Invalid JSON")
     else JsonResponse 500 (error_body (exn_msg e)),
     log (EvRead 20 (read_bytes post_tts 20)) initial).
Proof.
  intros e W.
  apply (unparsable_body W post_tts initial 20 e);
    solve [reflexivity | lia].
Defined.

Lemma empty_text_gets_400_witness :
  let W := scripted (PDict [("voice", PStr "af_heart")]) [] in
  do_POST W post_tts initial
  = (JsonResponse 400 (error_body "No text provided"),
     log (EvRead 20 (read_bytes post_tts 20)) initial).
Proof.
  intros W.
  apply (empty_text_gets_400 W post_tts initial 20
           [("voice", PStr "af_heart")] (PStr ""));
    solve [reflexivity | lia].
Defined.

Lemma long_text_gets_400_witness :
  let W := scripted (say (PStr (text_of_length 10001)) (PStr "af_heart")) [] in
  do_POST W post_tts initial
  = (JsonResponse 400 (error_body "Text too long (max 10000 chars)"),
     log (EvRead 20 (read_bytes post_tts 20)) initial).
Proof.
  intros W.
  apply (long_text_gets_400 W post_tts initial 20
           [("text", PStr (text_of_length 10001)); ("voice", PStr "af_heart")]
           (PStr (text_of_length 10001)) 10001);
    solve [vm_compute; reflexivity | lia].
Defined.

Lemma non_object_body_gets_500_witness :
  let W := scripted (PList [PStr "hello"]) [] in
  do_POST W post_tts initial
  = (JsonResponse 500 (error_body "'list' object has no attribute 'get'"),
     log (EvRead 20 (read_bytes post_tts 20)) initial).
Proof.
  intros W.
  apply (non_object_body_gets_500 W post_tts initial 20 (PList [PStr "hello"]));
    solve [reflexivity | lia | discriminate].
Defined.

Lemma other_routes_touch_nothing_witness :
  do_GET (scripted hello []) get_nothing initial
  = (Ok (JsonResponse 404 (error_body "Not found")), initial)
  /\ do_POST (scripted hello []) get_nothing initial
     = (JsonResponse 404 (error_body "Not found"), initial).
Proof.
  destruct (other_routes_touch_nothing (scripted hello []) get_nothing initial)
    as [Hget Hpost]; [discriminate|].
  split; [apply Hget | apply Hpost]; discriminate.
Defined.

Lemma at_most_two_attempts_witness :
  let W := scripted hello [with_nan; with_nan] in
  let d := trace (do_POST W post_tts initial).2 in
  (inference_count d <= 2)%nat
  /\ (length (evictions d) <= 1)%nat
  /\ (length (encoded d) <= 1)%nat.
Proof.
  intros W d.
  apply (at_most_two_attempts W post_tts initial
           (do_POST W post_tts initial).1 (do_POST W post_tts initial).2 d);
    vm_compute; reflexivity.
Defined.

Lemma counter_counts_recoveries_witness :
  let W := scripted hello [with_nan; clean] in
  let st' := (do_POST W post_tts initial).2 in
  let d := trace st' in
  (nan_recoveries st' = nan_recoveries initial
   \/ nan_recoveries st' = nan_recoveries initial + 1)
  /\ (nan_recoveries st' = nan_recoveries initial + 1 <->
      exists p1 a1 p2 a2,
        inferences d = [(p1, Some a1); (p2, Some a2)]
        /\ has_nan a1 = true /\ has_nan a2 = false
        /\ encoded d = [a2]).
Proof.
  intros W st' d.
  apply (counter_counts_recoveries W post_tts initial
           (do_POST W post_tts initial).1 st' d);
    vm_compute; reflexivity.
Defined.

Lemma served_audio_has_no_nan_witness :
  let W := scripted hello [with_nan; clean] in
  let d := trace (do_POST W post_tts initial).2 in
  exists p a,
    last (inferences d) = Some (p, Some a)
    /\ has_nan a = false
    /\ encoded d = [a].
Proof.
  intros W d.
  apply (served_audio_has_no_nan W post_tts initial "mp3"
           (do_POST W post_tts initial).2 d);
    vm_compute; reflexivity.
Defined.

Lemma get_pipeline_twice_witness :
  let W := scripted hello [] in
  let st1 := (get_pipeline W "b" initial).2 in
  get_pipeline W "b" st1 = (Ok 0%nat, st1).
Proof.
  intros W st1.
  apply (get_pipeline_twice W "b" initial 0%nat st1).
  vm_compute. reflexivity.
Defined.

Lemma cached_pipeline_is_reused_witness :
  let W := scripted hello [clean; clean] in
  let st := (do_POST W post_tts initial).2 in
  let st' := (generate_mp3 W (PStr "hello") "af_heart" st).2 in
  let d := take (length (trace st') - length (trace st)) (trace st') in
  constructions d = []
  /\ Forall (fun x => x.1 = 0%nat) (inferences d)
  /\ pipelines st' = pipelines st
  /\ next_pid st' = next_pid st
  /\ exists rv rest,
       d = rest ++ [EvLoadVoice 0%nat "af_heart" rv]
       /\ Forall (fun e => match e with
                           | EvInference q t _ _ => q = 0%nat /\ t = PStr "hello"
                           | EvEncode _ _ => True
                           | _ => False
                           end) rest.
Proof.
  intros W st st' d.
  apply (cached_pipeline_is_reused W (PStr "hello") "af_heart" "a" 0%nat st
           (generate_mp3 W (PStr "hello") "af_heart" st).1 st' d);
    vm_compute; reflexivity.
Defined.

Lemma failed_reload_leaves_code_uncached_witness :
  let W := with_pipelines (scripted hello [with_nan]) 1 in
  let e := Exn "RuntimeError" "out of memory" in
  let st' := (generate_mp3 W (PStr "hello") "af_heart" initial).2 in
  (generate_mp3 W (PStr "hello") "af_heart" initial).1 = Raise e
  /\ pipelines st' !! "a" = None
  /\ nan_recoveries st' = nan_recoveries initial.
Proof.
  intros W e st'.
  apply (failed_reload_leaves_code_uncached W (PStr "hello") "af_heart" "a"
           initial (generate_mp3 W (PStr "hello") "af_heart" initial).1 st'
           (trace st') e);
    solve [vm_compute; reflexivity | vm_compute; discriminate].
Defined.

Lemma get_voices_listing_witness :
  let W := scripted hello [] in
  exists names,
    w_listdir W (trace initial) = Ok names
    /\ (do_GET W get_voices initial).2 = log (EvListdir (Ok names)) initial
    /\ JsonResponse 200 (voices_body ["af_heart"; "bf_emma"])
       = JsonResponse 200 (voices_body (list_voices names))
    /\ Sorted PyStr.le (list_voices names)
    /\ (forall v, v ∈ list_voices names -> PyStr.startswith "." v = false)
    /\ (forall v, v ∈ list_voices names <->
          exists f, f ∈ names /\ PyStr.endswith ".pt" f = true
                    /\ PyStr.startswith "." f = false
                    /\ v = PyStr.replace ".pt" "" f).
Proof.
  intros W.
  apply (get_voices_listing W get_voices initial
           (JsonResponse 200 (voices_body ["af_heart"; "bf_emma"])));
    vm_compute; reflexivity.
Defined.

Lemma plain_voice_file_is_listed_witness :
  PyStr.replace ".pt" "" ("af_heart" ++ ".pt") = "af_heart"
  /\ "af_heart" ∈ list_voices ["bf_emma.pt"; "af_heart.pt"].
Proof.
  apply (plain_voice_file_is_listed ["bf_emma.pt"; "af_heart.pt"] "af_heart");
    [right; left | discriminate | reflexivity].
Defined.

Lemma voices_get_and_post_witness :
  let W := scripted hello [] in
  let names := ["bf_emma.pt"; ".hidden.pt"; "af_heart.pt"; "notes.txt"] in
  let st1 := log (EvListdir (Ok names)) initial in
  do_GET W get_voices initial
  = (Ok (JsonResponse 200 (voices_body (list_voices names))), st1)
  /\ do_POST W get_voices initial
     = (JsonResponse 200 (voices_body (list_voices names)), st1).
Proof.
  intros W names st1.
  apply (voices_get_and_post W get_voices initial). reflexivity.
Defined.

Lemma startup_failure_serves_nothing_witness :
  let W := with_pipelines (scripted hello []) 0 in
  let e := Exn "RuntimeError" "out of memory" in
  main W [post_tts; get_voices] = log (EvConstruct "a" (Raise e)) initial.
Proof.
  intros W e.
  apply (startup_failure_serves_nothing W [post_tts; get_voices] e).
  reflexivity.
Defined.

(** After a recovery, the inference that is served ran on the pipeline
    constructed after the eviction, which is live. *)
Lemma no_call_into_an_evicted_pipeline_witness :
  let W := scripted hello [with_nan; clean] in
  let tr := trace (main W [post_tts]) in
  pipeline_used (default (EvEvict "" None) (tr !! 1%nat)) = Some 1%nat
  /\ 1%nat ∈ (live (drop 2 tr)).*2.
Proof.
  intros W tr. split; [vm_compute; reflexivity|].
  apply (no_call_into_an_evicted_pipeline W [post_tts]
           (default (EvEvict "" None) (tr !! 1%nat)) (drop 2 tr) 1%nat).
  - exists (take 1 tr). vm_compute. reflexivity.
  - vm_compute. reflexivity.
Defined.

Lemma VOICE_PATTERN_match_spec_witness :
  VOICE_PATTERN_match heart_newline = true.
Proof.
  apply (proj2 (VOICE_PATTERN_match_spec heart_newline)).
  right. exists "af_heart". split; reflexivity.
Defined.

Lemma unmatched_voice_gets_400_witness :
  let W := scripted (say (PStr "hello") (PStr "../../etc/passwd")) [] in
  do_POST W post_tts initial
  = (JsonResponse 400 (error_body "Invalid voice name: ../../etc/passwd"),
     log (EvRead 20 (read_bytes post_tts 20)) initial).
Proof.
  intros W.
  apply (unmatched_voice_gets_400 W post_tts initial 20
           (say (PStr "hello") (PStr "../../etc/passwd")) (PStr "hello") 5
           "../../etc/passwd");
    solve [reflexivity | lia].
Defined.
